(** * Screenshot microservice (index.js): capture, adaptive compression, publish

    A shallow embedding of [src/index.js].  The service is one Express
    handler that acknowledges a request and then runs an asynchronous
    pipeline: availability probe, headless browser capture, two-pass JPEG
    compression, upload to object storage, database update, and removal of
    the transient file.

    Every call that leaves the process (fetch, puppeteer, sharp, supabase,
    the file system, the clock) is answered by an [oracle]; the code's own
    control flow, its try/catch blocks and its comparisons are embedded as
    written, in a state-and-exception monad over a [world] that records the
    browser, the transient directory, the storage bucket, the projects table
    and the chronological trace of calls. *)

From Stdlib Require Import ZArith QArith Lia.
From stdpp Require Import gmap strings list pretty.

Local Close Scope Q_scope.
Local Open Scope string_scope.
Local Open Scope Z_scope.
Local Open Scope list_scope.

(** ** Data *)

(** A Node [Buffer]: a sequence of bytes. *)
Abbreviation buffer := (list Byte.byte).

(** [buffer.length], a non-negative integer. *)
Definition buf_length (b : buffer) : Z := Z.of_nat (length b).

(** The stages that can throw, one tag per call site. *)
Inductive error :=
| FetchError
| BrowserLaunchError
| NewPageError
| ViewportError
| NavigationError
| WaitTimeoutError
| CaptureError
| StatError
| BrowserCloseError
| ImageProcessingError
| StorageRemoveError
| UploadError
| UpdateError
| UnlinkError
| TypeError.

Inductive level := LInfo | LWarn | LError.

(** Bodies passed to [res.json]. *)
Inductive response_body :=
| BodyError (err : string)
| BodyProcessing (status message app_name project_id : string).

(** Calls made by the code, in the order they are made.  An event records
    the attempt, whether or not the call succeeds. *)
Inductive event :=
| EvLog (l : level) (msg : string)
| EvResponse (status : Z) (body : response_body)
| EvFetch (url : string)
| EvLaunch
| EvNewPage
| EvSetViewport (width height : Z)
| EvGoto (url : string)
| EvWaitForFunction (selector : string)
| EvWaitForTimeout (ms : Z)
| EvScreenshot (path : string)
| EvStat (path : string)
| EvBrowserClose
| EvEncode (quality width : Z)
| EvStorageRemove (key : string)
| EvStorageUpload (key : string) (size : Z)
| EvDbUpdate (id url : string)
| EvUnlink (path : string).

Global Instance level_eq_dec : EqDecision level.
Proof. solve_decision. Defined.
Global Instance response_body_eq_dec : EqDecision response_body.
Proof. solve_decision. Defined.
Global Instance event_eq_dec : EqDecision event.
Proof. solve_decision. Defined.

(** The browser process of one request. *)
Inductive browser_state := Uninitialized | Launched | Closed.

(** A row of the [projects] table: the two columns the code writes. *)
Record project_row := { screenshot : string; updated_at : Z }.

Record world := {
  browser : browser_state;
  files : gmap string buffer;          (* the screenshots directory *)
  storage : gmap string buffer;        (* bucket 'projects' *)
  projects : gmap string project_row;  (* table 'projects', keyed by id *)
  filepath : option string;            (* [let filepath;] of processScreenshotAsync *)
  trace : list event
}.

(** ** Oracle: the answers of the outside world *)

Inductive probe_outcome :=
| ProbeResponse (status : Z)
| ProbeThrows.

(** [page.screenshot({path})]: on failure the file may or may not have been
    written already. *)
Inductive screenshot_outcome :=
| ShotSaved (png : buffer)
| ShotFailed (partial : option buffer).

(** [storage.remove] resolves with a result object (whose error the code
    does not inspect) or rejects. *)
Inductive remove_outcome := RemoveDone | RemoveErrorResult | RemoveThrows.

Record oracle := {
  dirname : string;                    (* __dirname *)
  public_url_of : string -> string;    (* storage.getPublicUrl *)
  hrtime : Z;                          (* process.hrtime() at line 130 *)
  now_health : Z;                      (* Date.now() at line 169 *)
  now_goto : Z;                        (* Date.now() at line 218 *)
  now_file : Z;                        (* Date.now() at line 252 *)
  now_version : Z;                     (* Date.now() at line 97 *)
  now_updated : Z;                     (* new Date() at line 107 *)
  probe : probe_outcome;
  launch_ok : bool;
  newpage_ok : bool;
  viewport_ok : bool;
  goto_ok : bool;                      (* false: error or 30 s timeout *)
  selector_gone : string -> bool;      (* false: waitForFunction times out *)
  wait_ok : bool;
  shot : screenshot_outcome;
  close_ok : bool;
  sharp_pass1 : buffer -> option buffer;  (* quality 40, width 800 *)
  sharp_pass2 : buffer -> option buffer;  (* quality 20, width 600 *)
  remove_result : remove_outcome;
  upload_ok : bool;
  update_ok : bool;
  unlink_ok : bool
}.

(** ** The monad: state over [world], with exceptions *)

Inductive outcome (A : Type) :=
| Return (a : A)
| Throw (e : error).
Arguments Return {A} a.
Arguments Throw {A} e.

Definition M (A : Type) : Type := world -> outcome A * world.

Definition ret {A} (a : A) : M A := fun w => (Return a, w).

Definition bind {A B} (m : M A) (k : A -> M B) : M B :=
  fun w => match m w with
           | (Return a, w') => k a w'
           | (Throw e, w') => (Throw e, w')
           end.

Definition throw {A} (e : error) : M A := fun w => (Throw e, w).

(** [try { m } catch (e) { h e }] *)
Definition try_catch {A} (m : M A) (h : error -> M A) : M A :=
  fun w => match m w with
           | (Return a, w') => (Return a, w')
           | (Throw e, w') => h e w'
           end.

Declare Scope js_scope.
Delimit Scope js_scope with js.
Notation "x <- m ;; k" := (bind m (fun x => k))
  (at level 100, m at next level, right associativity) : js_scope.
Notation "m ;;; k" := (bind m (fun _ => k))
  (at level 100, right associativity) : js_scope.
Local Open Scope js_scope.

Definition modify (f : world -> world) : M unit := fun w => (Return tt, f w).
Definition gets {A} (f : world -> A) : M A := fun w => (Return (f w), w).

Definition with_trace (t : list event) (w : world) : world :=
  {| browser := browser w; files := files w; storage := storage w;
     projects := projects w; filepath := filepath w; trace := t |}.
Definition with_browser (b : browser_state) (w : world) : world :=
  {| browser := b; files := files w; storage := storage w;
     projects := projects w; filepath := filepath w; trace := trace w |}.
Definition with_files (f : gmap string buffer) (w : world) : world :=
  {| browser := browser w; files := f; storage := storage w;
     projects := projects w; filepath := filepath w; trace := trace w |}.
Definition with_storage (s : gmap string buffer) (w : world) : world :=
  {| browser := browser w; files := files w; storage := s;
     projects := projects w; filepath := filepath w; trace := trace w |}.
Definition with_projects (p : gmap string project_row) (w : world) : world :=
  {| browser := browser w; files := files w; storage := storage w;
     projects := p; filepath := filepath w; trace := trace w |}.
Definition with_filepath (p : option string) (w : world) : world :=
  {| browser := browser w; files := files w; storage := storage w;
     projects := projects w; filepath := p; trace := trace w |}.

Definition emit (e : event) : M unit :=
  modify (fun w => with_trace (trace w ++ [e]) w).

Definition log (l : level) (msg : string) : M unit := emit (EvLog l msg).

(** A call that either succeeds or throws [e], as the oracle says. *)
Definition guard (ok : bool) (e : error) : M unit :=
  if ok then ret tt else throw e.

(** ** Number semantics

    [buffer.length / 1024] is a JS double.  A buffer length is an integer
    below 2^53 and 1024 is a power of two, so the quotient is computed
    without rounding: the rational [len / 1024] is the exact value the code
    compares. *)

Definition kb (len : Z) : Q := (inject_Z len / inject_Z 1024)%Q.

(** JS [x > y] and [x <= y] on numbers that are not NaN. *)
Definition js_gt (x y : Q) : bool :=
  match (x ?= y)%Q with Gt => true | _ => false end.
Definition js_le (x y : Q) : bool :=
  match (x ?= y)%Q with Gt => false | _ => true end.

(** ** processAndUploadImage (lines 34-126) *)

Record compressed := { payload : buffer; size_kb : Q }.

Record upload_result := { success : bool; url : string; size : Q }.

(** [await sharp(input).jpeg({quality}).resize(width, ...).toBuffer()] *)
Definition sharp_toBuffer (enc : buffer -> option buffer) (quality width : Z)
    (input : option buffer) : M buffer :=
  emit (EvEncode quality width);;;
  match input with
  | None => throw ImageProcessingError
  | Some b =>
      match enc b with
      | Some out => ret out
      | None => throw ImageProcessingError
      end
  end.

(** [fs.statSync(path).size] *)
Definition statSync_size (path : string) : M Z :=
  emit (EvStat path);;;
  f <- gets files;;
  match f !! path with
  | Some b => ret (buf_length b)
  | None => throw StatError
  end.

(** Lines 40-70: the two compression passes. *)
Definition compress_image (o : oracle) (imagePath : string) : M compressed :=
  f <- gets files;;
  processedImageBuffer <- sharp_toBuffer (sharp_pass1 o) 40 800 (f !! imagePath);;
  originalSize <- statSync_size imagePath;;
  let compressedSize := kb (buf_length processedImageBuffer) in
  log LInfo "Image compressed";;;
  if js_gt compressedSize (inject_Z 30) then
    reprocessedBuffer <-
      sharp_toBuffer (sharp_pass2 o) 20 600 (Some processedImageBuffer);;
    let recompressedSize := kb (buf_length reprocessedBuffer) in
    log LInfo "Image recompressed";;;
    if js_le recompressedSize (inject_Z 30) then
      ret {| payload := reprocessedBuffer; size_kb := recompressedSize |}
    else
      ret {| payload := processedImageBuffer; size_kb := compressedSize |}
  else
    ret {| payload := processedImageBuffer; size_kb := compressedSize |}.

Definition bucket_path (projectId : string) : string :=
  "screenshots/" +:+ projectId +:+ ".jpg".

(** [supabase.storage.from('projects').remove([filePath])] *)
Definition storage_remove (o : oracle) (key : string) : M unit :=
  emit (EvStorageRemove key);;;
  match remove_result o with
  | RemoveDone => modify (fun w => with_storage (delete key (storage w)) w)
  | RemoveErrorResult => ret tt
  | RemoveThrows => throw StorageRemoveError
  end.

(** [upload(filePath, buffer, {upsert: true})]: resolves with the error, if
    any, in its result. *)
Definition storage_upload (o : oracle) (key : string) (b : buffer)
    : M (option error) :=
  emit (EvStorageUpload key (buf_length b));;;
  if upload_ok o then
    modify (fun w => with_storage (<[key := b]> (storage w)) w);;;
    ret None
  else ret (Some UploadError).

(** [from('projects').update({screenshot, updated_at}).eq('id', projectId)]:
    rewrites the row with that id, if there is one. *)
Definition projects_update (o : oracle) (projectId publicUrl : string)
    : M (option error) :=
  emit (EvDbUpdate projectId publicUrl);;;
  if update_ok o then
    modify (fun w =>
      with_projects
        (match projects w !! projectId with
         | Some _ =>
             <[projectId := {| screenshot := publicUrl;
                               updated_at := now_updated o |}]> (projects w)
         | None => projects w
         end) w);;;
    ret None
  else ret (Some UpdateError).

(** Lines 72-120: publish the payload. *)
Definition upload_image (o : oracle) (projectId : string) (c : compressed)
    : M upload_result :=
  let filePath := bucket_path projectId in
  try_catch
    (storage_remove o filePath;;;
     log LInfo "Removed existing screenshot")
    (fun _ => log LInfo "No existing screenshot to remove or error removing:");;;
  uploadError <- storage_upload o filePath (payload c);;
  match uploadError with
  | Some e => throw e
  | None =>
      let timestamp := now_version o in
      let publicUrl := public_url_of o (filePath +:+ "?v=" +:+ pretty timestamp) in
      updateError <- projects_update o projectId publicUrl;;
      match updateError with
      | Some e => throw e
      | None =>
          log LInfo "Image processed and uploaded";;;
          ret {| success := true; url := publicUrl; size := size_kb c |}
      end
  end.

Definition processAndUploadImage (o : oracle) (imagePath projectId : string)
    : M upload_result :=
  log LInfo "Processing and uploading image to Supabase...";;;
  try_catch
    (c <- compress_image o imagePath;;
     upload_image o projectId c)
    (fun e =>
       log LError "Error processing/uploading image:";;;
       throw e).

(** ** processScreenshotAsync (lines 160-317) *)

(** The double-quote character, for the selector strings. *)
Definition dquote : string :=
  String (Ascii.Ascii false true false false false true false false) "".

Definition loadingSelectors : list string :=
  [ "[data-testid=" +:+ dquote +:+ "loading" +:+ dquote +:+ "]";
    ".loading";
    ".spinner";
    ".loader";
    "[class*=" +:+ dquote +:+ "loading" +:+ dquote +:+ "]";
    "[class*=" +:+ dquote +:+ "spinner" +:+ dquote +:+ "]" ].

(** [path.join(a, b)] for segments without separators or dots. *)
Definition path_join (a b : string) : string := a +:+ "/" +:+ b.

Definition screenshotsDir (o : oracle) : string :=
  path_join (dirname o) "screenshots".

Definition app_url (id : string) : string := "https://kulp-" +:+ id +:+ ".fly.dev".

(** Line 252: [`screenshot-${id}-${Date.now()}.png`] *)
Definition screenshot_filename (id : string) (now : Z) : string :=
  "screenshot-" +:+ id +:+ "-" +:+ pretty now +:+ ".png".

(** [response.ok]: status in the range 200-299. *)
Definition response_ok (status : Z) : bool :=
  (200 <=? status) && (status <=? 299).

(** Lines 168-184.  The result says whether the function goes on; [false]
    stands for the two [return] statements. *)
Definition check_availability (o : oracle) (appUrl : string) : M bool :=
  try_catch
    (emit (EvFetch (appUrl +:+ "?_health_check=" +:+ pretty (now_health o)));;;
     match probe o with
     | ProbeThrows => throw FetchError
     | ProbeResponse status =>
         if negb (response_ok status) then
           log LWarn "App not ready";;;
           ret false
         else ret true
     end)
    (fun _ =>
       log LError "App availability check failed:";;;
       ret false).

(** Lines 233-243: each selector is waited for; a timeout is swallowed. *)
Fixpoint wait_for_loading (o : oracle) (selectors : list string) : M unit :=
  match selectors with
  | [] => ret tt
  | selector :: rest =>
      try_catch
        (emit (EvWaitForFunction selector);;;
         guard (selector_gone o selector) WaitTimeoutError)
        (fun _ => ret tt);;;
      wait_for_loading o rest
  end.

(** [page.screenshot({ path, fullPage: true })] *)
Definition page_screenshot (o : oracle) (path : string) : M unit :=
  emit (EvScreenshot path);;;
  match shot o with
  | ShotSaved png => modify (fun w => with_files (<[path := png]> (files w)) w)
  | ShotFailed partial =>
      match partial with
      | Some b => modify (fun w => with_files (<[path := b]> (files w)) w)
      | None => ret tt
      end;;;
      throw CaptureError
  end.

(** [fs.existsSync(path)] *)
Definition existsSync (path : string) : M bool :=
  f <- gets files;;
  ret (match f !! path with Some _ => true | None => false end).

(** [fs.unlinkSync(path)]: throws when the file is missing or cannot be
    removed. *)
Definition unlinkSync (o : oracle) (path : string) : M unit :=
  emit (EvUnlink path);;;
  f <- gets files;;
  match f !! path with
  | Some _ =>
      if unlink_ok o then modify (fun w => with_files (delete path (files w)) w)
      else throw UnlinkError
  | None => throw UnlinkError
  end.

(** [browser.close()] *)
Definition browser_close (o : oracle) : M unit :=
  emit EvBrowserClose;;;
  guard (close_ok o) BrowserCloseError;;;
  modify (with_browser Closed).

(** JS truthiness of a string. *)
Definition truthy (s : string) : bool := negb (String.eqb s "").

(** Lines 186-298: the body of the [try] after the availability check. *)
Definition capture_and_publish (o : oracle) (id appUrl : string) : M unit :=
  log LInfo "Launching browser...";;;
  emit EvLaunch;;;
  guard (launch_ok o) BrowserLaunchError;;;
  modify (with_browser Launched);;;
  log LInfo "Browser launched";;;
  emit EvNewPage;;;
  guard (newpage_ok o) NewPageError;;;
  log LInfo "New page created";;;
  emit (EvSetViewport 1920 1080);;;
  guard (viewport_ok o) ViewportError;;;
  log LInfo "Viewport set to 1920x1080";;;
  log LInfo "Navigating";;;
  emit (EvGoto (appUrl +:+ "?_screenshot=" +:+ pretty (now_goto o)));;;
  guard (goto_ok o) NavigationError;;;
  wait_for_loading o loadingSelectors;;;
  emit (EvWaitForTimeout 2000);;;
  guard (wait_ok o) WaitTimeoutError;;;
  log LInfo "Page loaded";;;
  let filename := screenshot_filename id (now_file o) in
  let path := path_join (screenshotsDir o) filename in
  modify (with_filepath (Some path));;;
  log LInfo "Taking screenshot";;;
  page_screenshot o path;;;
  log LInfo "Screenshot saved";;;
  statSync_size path;;;
  log LInfo "Screenshot size";;;
  browser_close o;;;
  log LInfo "Browser closed";;;
  uploadResult <- processAndUploadImage o path id;;
  try_catch
    (unlinkSync o path;;;
     log LInfo "Screenshot file cleaned up successfully")
    (fun _ => log LWarn "Failed to cleanup screenshot file:");;;
  log LInfo "Total processing time";;;
  log LInfo "Memory usage difference:";;;
  log LInfo "{ heapUsed, heapTotal, external, rss }";;;
  log LInfo "Screenshot processing completed successfully";;;
  log LInfo "Screenshot URL";;;
  log LInfo "Size".

(** Lines 300-316: the [catch] block. *)
Definition on_error (o : oracle) (e : error) : M unit :=
  log LError "Screenshot processing error:";;;
  log LError "Stack trace:";;;
  try_catch
    (fp <- gets filepath;;
     match fp with
     | Some p =>
         if truthy p then
           present <- existsSync p;;
           if present then
             unlinkSync o p;;;
             log LInfo "Screenshot file cleaned up after error"
           else ret tt
         else ret tt
     | None => ret tt
     end)
    (fun _ => log LWarn "Failed to cleanup screenshot file after error:");;;
  log LError "Screenshot processing failed".

Definition processScreenshotAsync (o : oracle) (id : string) (startTime : Z)
    : M unit :=
  modify (with_filepath None);;;
  try_catch
    (let appUrl := app_url id in
     log LInfo "Checking availability";;;
     ready <- check_availability o appUrl;;
     if ready then capture_and_publish o id appUrl else ret tt)
    (on_error o).

(** ** The route handler (lines 129-157) *)

(** [req.body]: absent, or an object read as a map from field names to
    strings. *)
Record request := { body : option (gmap string string) }.

(** A call of an async function that is not awaited: its effects happen,
    its outcome is dropped. *)
Definition detached {A} (m : M A) : M unit :=
  fun w => (Return tt, snd (m w)).

Definition take_screenshot (o : oracle) (req : request) : M unit :=
  let startTime := hrtime o in
  log LInfo "New screenshot request received";;;
  try_catch
    (b <- match body req with
          | Some b => ret b
          | None => throw TypeError
          end;;
     match b !! "project_id" with
     | Some id =>
         if negb (truthy id) then
           log LWarn "Request rejected: Missing ID";;;
           emit (EvResponse 400 (BodyError "ID is required in request body"))
         else
           emit (EvResponse 200
                   (BodyProcessing "processing"
                      "Screenshot request received and is being processed"
                      ("kulp-" +:+ id) id));;;
           log LInfo "Immediate response sent, processing screenshot asynchronously";;;
           detached (processScreenshotAsync o id startTime)
     | None =>
         log LWarn "Request rejected: Missing ID";;;
         emit (EvResponse 400 (BodyError "ID is required in request body"))
     end)
    (fun _ =>
       log LError "Request handling error:";;;
       emit (EvResponse 500 (BodyError "Failed to process screenshot request"))).

(** * Vocabulary of the properties *)

(** The ceiling in bytes: 30 KB. *)
Definition ceiling_bytes : Z := 30 * 1024.

(** A payload with its size in KB, as the code pairs them. *)
Definition mk_compressed (b : buffer) : compressed :=
  {| payload := b; size_kb := kb (buf_length b) |}.

(** The compressor with every comparison made on raw byte lengths against
    the ceiling of 30720 bytes, as the specification words it. *)
Definition compress_image_bytes (o : oracle) (imagePath : string) : M compressed :=
  f <- gets files;;
  pass1 <- sharp_toBuffer (sharp_pass1 o) 40 800 (f !! imagePath);;
  statSync_size imagePath;;;
  log LInfo "Image compressed";;;
  if ceiling_bytes <? buf_length pass1 then
    pass2 <- sharp_toBuffer (sharp_pass2 o) 20 600 (Some pass1);;
    log LInfo "Image recompressed";;;
    if buf_length pass2 <=? ceiling_bytes then ret (mk_compressed pass2)
    else ret (mk_compressed pass1)
  else ret (mk_compressed pass1).

(** What the two passes return, and the calls they make, as functions of
    the content of the input file. *)
Definition two_pass_result (o : oracle) (input : option buffer)
    : outcome compressed :=
  match input with
  | None => Throw ImageProcessingError
  | Some png =>
      match sharp_pass1 o png with
      | None => Throw ImageProcessingError
      | Some b1 =>
          if ceiling_bytes <? buf_length b1 then
            match sharp_pass2 o b1 with
            | None => Throw ImageProcessingError
            | Some b2 =>
                Return (mk_compressed
                          (if buf_length b2 <=? ceiling_bytes then b2 else b1))
            end
          else Return (mk_compressed b1)
      end
  end.

(** The calls of the two passes, in order. *)
Definition two_pass_events (o : oracle) (imagePath : string)
    (input : option buffer) : list event :=
  match input with
  | None => [EvEncode 40 800]
  | Some png =>
      match sharp_pass1 o png with
      | None => [EvEncode 40 800]
      | Some b1 =>
          [EvEncode 40 800; EvStat imagePath; EvLog LInfo "Image compressed"] ++
          (if ceiling_bytes <? buf_length b1 then
             EvEncode 20 600 ::
             match sharp_pass2 o b1 with
             | None => []
             | Some _ => [EvLog LInfo "Image recompressed"]
             end
           else [])
      end
  end.

(** Sample inputs. *)
Definition zeros (n : Z) : buffer := repeat Byte.x00 (Z.to_nat n).

Definition sample_png : buffer := zeros 64.

(** An oracle in which every call succeeds unless an argument says
    otherwise; the two sharp passes return buffers of [p1] and [p2] bytes. *)
Definition sample_oracle (pr : probe_outcome) (goto upload update unlink : bool)
    (start p1 p2 : Z) : oracle :=
  {| dirname := "/app";
     public_url_of := fun k => "https://storage.example/projects/" +:+ k;
     hrtime := start;
     now_health := 1700000000000;
     now_goto := 1700000000250;
     now_file := 1700000003000;
     now_version := 1700000004000;
     now_updated := 1700000004001;
     probe := pr;
     launch_ok := true;
     newpage_ok := true;
     viewport_ok := true;
     goto_ok := goto;
     selector_gone := fun _ => true;
     wait_ok := true;
     shot := ShotSaved sample_png;
     close_ok := true;
     sharp_pass1 := fun _ => Some (zeros p1);
     sharp_pass2 := fun _ => Some (zeros p2);
     remove_result := RemoveDone;
     upload_ok := upload;
     update_ok := update;
     unlink_ok := unlink |}.

Definition idle_world : world :=
  {| browser := Uninitialized;
     files := ∅;
     storage := ∅;
     projects := {[ "abc123" := {| screenshot := "old-url"; updated_at := 0 |} ]};
     filepath := None;
     trace := [] |}.

Definition world_with_png : world :=
  with_files {[ "/app/screenshots/shot.png" := sample_png ]} idle_world.

(** The trace only grows. *)
Definition extends (w w' : world) : Prop :=
  exists evs, trace w' = trace w ++ evs.

(** The transient directory, the local variable and the browser are left
    alone, and the trace only grows. *)
Definition keeps_local (w w' : world) : Prop :=
  files w' = files w /\ filepath w' = filepath w /\ browser w' = browser w /\
  extends w w'.

Definition sample_request (id : string) : request :=
  {| body := Some {[ "project_id" := id ]} |}.

Definition empty_request : request := {| body := Some ∅ |}.

(** The probe throws, or answers with a status outside 200-299. *)
Definition probe_fails (o : oracle) : bool :=
  match probe o with
  | ProbeThrows => true
  | ProbeResponse status => negb (response_ok status)
  end.

(** Lines 252-253: the path of the transient file of a run. *)
Definition artifact_path (o : oracle) (id : string) : string :=
  path_join (screenshotsDir o) (screenshot_filename id (now_file o)).

(** Every stage before the capture succeeds. *)
Definition reaches_capture (o : oracle) : bool :=
  negb (probe_fails o) && launch_ok o && newpage_ok o && viewport_ok o &&
  goto_ok o && wait_ok o.

(** [page.screenshot] writes the file, whether or not it then fails. *)
Definition writes_file (o : oracle) : bool :=
  match shot o with
  | ShotSaved _ => true
  | ShotFailed (Some _) => true
  | ShotFailed None => false
  end.

(** The characters of a string, and the dash that separates the
    identifier from the timestamp in a file name. *)
Abbreviation chars := Stdlib.Strings.String.list_ascii_of_string.

Definition dash : Ascii.ascii :=
  Ascii.Ascii true false true true false true false false.

(** A computation preserves a relation between worlds when every run
    relates the world it starts in to the world it ends in, whatever the
    outcome. *)
Definition preserves (R : world -> world -> Prop) {A} (m : M A) : Prop :=
  forall w, R w (snd (m w)).

(** Calls on the [projects] table and on the storage bucket. *)
Definition is_db_update (e : event) : bool :=
  match e with EvDbUpdate _ _ => true | _ => false end.

Definition is_storage_call (e : event) : bool :=
  match e with
  | EvStorageRemove _ | EvStorageUpload _ _ => true
  | _ => false
  end.

(** The log line that follows the removal of the previous object (lines
    81 and 83). *)
Definition removal_log (o : oracle) : event :=
  match remove_result o with
  | RemoveThrows =>
      EvLog LInfo "No existing screenshot to remove or error removing:"
  | _ => EvLog LInfo "Removed existing screenshot"
  end.

(** Kinds of events. *)
Definition is_log (e : event) : bool :=
  match e with EvLog _ _ => true | _ => false end.

Definition is_response (e : event) : bool :=
  match e with EvResponse _ _ => true | _ => false end.

Definition is_unlink (e : event) : bool :=
  match e with EvUnlink _ => true | _ => false end.

(** Calls that write to the transient directory, the bucket or the table. *)
Definition is_mutation (e : event) : bool :=
  match e with
  | EvScreenshot _ | EvUnlink _ | EvStorageRemove _ | EvStorageUpload _ _
  | EvDbUpdate _ _ => true
  | _ => false
  end.

(** The calls of a trace, log lines left out. *)
Definition calls (t : list event) : list event :=
  List.filter (fun e => negb (is_log e)) t.

(** The trace grows by events that are not responses. *)
Definition no_response (w w' : world) : Prop :=
  exists evs, trace w' = trace w ++ evs /\
              Forall (fun e => is_response e = false) evs.

(** More sample inputs: an oracle in which everything succeeds, and one
    whose launch, capture and first pass are given. *)
Definition ok_oracle : oracle :=
  sample_oracle (ProbeResponse 200) true true true true 1 2048 1024.

Definition faulty_oracle (launch : bool) (sh : screenshot_outcome)
    (pass1 : option buffer) : oracle :=
  {| dirname := "/app";
     public_url_of := fun k => "https://storage.example/projects/" +:+ k;
     hrtime := 1;
     now_health := 1700000000000;
     now_goto := 1700000000250;
     now_file := 1700000003000;
     now_version := 1700000004000;
     now_updated := 1700000004001;
     probe := ProbeResponse 200;
     launch_ok := launch;
     newpage_ok := true;
     viewport_ok := true;
     goto_ok := true;
     selector_gone := fun _ => false;
     wait_ok := true;
     shot := sh;
     close_ok := true;
     sharp_pass1 := fun _ => pass1;
     sharp_pass2 := fun _ => None;
     remove_result := RemoveDone;
     upload_ok := false;
     update_ok := true;
     unlink_ok := true |}.

(** * Properties *)

(** ** The size comparisons *)

Lemma js_gt_kb (len : Z) :
  js_gt (kb len) (inject_Z 30) = (ceiling_bytes <? len).
Proof.
  unfold js_gt, kb, Qcompare, Qdiv, Qmult, Qinv, inject_Z.
  cbn [Qnum Qden].
  change (30 * Z.pos (1 * 1024)) with ceiling_bytes. rewrite !Z.mul_1_r.
  destruct (Z.compare_spec len ceiling_bytes);
    destruct (Z.ltb_spec ceiling_bytes len); try reflexivity; lia.
Qed.

Lemma js_le_kb (len : Z) :
  js_le (kb len) (inject_Z 30) = (len <=? ceiling_bytes).
Proof.
  unfold js_le, kb, Qcompare, Qdiv, Qmult, Qinv, inject_Z.
  cbn [Qnum Qden].
  change (30 * Z.pos (1 * 1024)) with ceiling_bytes. rewrite !Z.mul_1_r.
  destruct (Z.compare_spec len ceiling_bytes);
    destruct (Z.leb_spec len ceiling_bytes); try reflexivity; lia.
Qed.

(** Unfolding the monad on a symbolic world. *)
Ltac unfold_monad :=
  unfold log, emit, guard, modify, gets, try_catch, bind, ret, throw in *.

Ltac norm_world :=
  cbn [with_trace with_browser with_files with_storage with_projects
       with_filepath browser files storage projects filepath trace] in *.

Lemma compress_image_eq_bytes o imagePath w :
  compress_image o imagePath w = compress_image_bytes o imagePath w.
Proof.
  unfold compress_image, compress_image_bytes, sharp_toBuffer, statSync_size.
  unfold_monad. norm_world.
  destruct (files w !! imagePath) as [png|]; [|reflexivity].
  destruct (sharp_pass1 o png) as [b1|]; [|reflexivity].
  rewrite js_gt_kb. destruct (ceiling_bytes <? buf_length b1); [|reflexivity].
  destruct (sharp_pass2 o b1) as [b2|]; [|reflexivity].
  rewrite js_le_kb. destruct (buf_length b2 <=? ceiling_bytes); reflexivity.
Qed.

Lemma compress_image_run o imagePath w :
  compress_image o imagePath w
  = (two_pass_result o (files w !! imagePath),
     with_trace (trace w ++ two_pass_events o imagePath (files w !! imagePath)) w).
Proof.
  rewrite compress_image_eq_bytes.
  unfold compress_image_bytes, sharp_toBuffer, statSync_size,
    two_pass_result, two_pass_events.
  unfold_monad. norm_world.
  destruct (files w !! imagePath) as [png|] eqn:Hfile; [|reflexivity].
  destruct (sharp_pass1 o png) as [b1|]; [|reflexivity].
  norm_world. rewrite Hfile.
  destruct (ceiling_bytes <? buf_length b1).
  - destruct (sharp_pass2 o b1) as [b2|].
    + destruct (buf_length b2 <=? ceiling_bytes);
        norm_world; cbn [app]; rewrite <- ?app_assoc; reflexivity.
    + norm_world; cbn [app]; rewrite <- ?app_assoc; reflexivity.
  - norm_world; cbn [app]; rewrite <- ?app_assoc; reflexivity.
Qed.

Lemma buf_length_zeros n : 0 <= n -> buf_length (zeros n) = n.
Proof.
  intros Hn. unfold buf_length, zeros. rewrite repeat_length. lia.
Qed.

Lemma world_with_png_lookup :
  files world_with_png !! "/app/screenshots/shot.png" = Some sample_png.
Proof. apply lookup_singleton_eq. Qed.

(** ** The adaptive compressor *)

(** C1, as the code has it.  When Pass 1's output exceeds the ceiling and
    Pass 2 encodes, Pass 2's result is the final payload exactly when its
    byte size is at or under the ceiling of 30720 bytes; otherwise Pass 1's
    result is kept, also when Pass 2's output is the smaller of the two. *)
Theorem C1_pass2_adopted_iff_under_ceiling o imagePath w png b1 b2 :
  files w !! imagePath = Some png ->
  sharp_pass1 o png = Some b1 ->
  ceiling_bytes < buf_length b1 ->
  sharp_pass2 o b1 = Some b2 ->
  fst (compress_image o imagePath w)
  = Return (mk_compressed (if buf_length b2 <=? ceiling_bytes then b2 else b1)).
Proof.
  intros Hfile H1 Hover H2.
  rewrite compress_image_run. cbn [fst].
  unfold two_pass_result. rewrite Hfile, H1.
  destruct (Z.ltb_spec ceiling_bytes (buf_length b1)); [|lia].
  rewrite H2. reflexivity.
Qed.

Lemma C1_pass2_adopted_iff_under_ceiling_witness :
  fst (compress_image
         (sample_oracle (ProbeResponse 200) true true true true 1 46080 28672)
         "/app/screenshots/shot.png" world_with_png)
  = Return (mk_compressed (zeros 28672)).
Proof.
  apply (C1_pass2_adopted_iff_under_ceiling
           (sample_oracle (ProbeResponse 200) true true true true 1 46080 28672)
           "/app/screenshots/shot.png" world_with_png
           sample_png (zeros 46080) (zeros 28672)).
  - apply world_with_png_lookup.
  - reflexivity.
  - rewrite buf_length_zeros by lia. reflexivity.
  - reflexivity.
Defined.

(** C1, as stated, fails: Pass 1 yields 45KB, Pass 2 yields 35KB, which is
    smaller but still over the ceiling, and the final payload is Pass 1's
    45KB output. *)
Lemma C1_smaller_pass2_over_ceiling_is_discarded :
  let o := sample_oracle (ProbeResponse 200) true true true true 1 46080 35840 in
  let r := fst (compress_image o "/app/screenshots/shot.png" world_with_png) in
  sharp_pass1 o sample_png = Some (zeros 46080) /\
  sharp_pass2 o (zeros 46080) = Some (zeros 35840) /\
  buf_length (zeros 46080) = 45 * 1024 /\
  buf_length (zeros 35840) = 35 * 1024 /\
  r = Return (mk_compressed (zeros 46080)) /\
  r <> Return (mk_compressed (zeros 35840)).
Proof.
  cbv zeta.
  assert (E : fst (compress_image
                     (sample_oracle (ProbeResponse 200) true true true true
                        1 46080 35840)
                     "/app/screenshots/shot.png" world_with_png)
              = Return (mk_compressed (zeros 46080))).
  { rewrite compress_image_run. cbn [fst]. unfold two_pass_result.
    rewrite world_with_png_lookup.
    cbn [sharp_pass1 sharp_pass2 sample_oracle].
    rewrite !buf_length_zeros by lia. reflexivity. }
  rewrite E, !buf_length_zeros by lia.
  repeat (split; [reflexivity|]).
  intros H.
  apply (f_equal (fun r => match r with
                           | Return c => buf_length (payload c)
                           | Throw _ => 0
                           end)) in H.
  cbn [payload mk_compressed] in H. rewrite !buf_length_zeros in H by lia.
  discriminate H.
Qed.

(** C4.  Whatever the compressor returns is no larger than Pass 1's output;
    and when Pass 1's output is at or under the ceiling it is returned as it
    is, after one encode call only: Pass 2 does not run. *)
Theorem C4_payload_never_grows_and_pass2_gated o imagePath w png b1 :
  files w !! imagePath = Some png ->
  sharp_pass1 o png = Some b1 ->
  (forall c, fst (compress_image o imagePath w) = Return c ->
             buf_length (payload c) <= buf_length b1) /\
  (buf_length b1 <= ceiling_bytes ->
   compress_image o imagePath w
   = (Return (mk_compressed b1),
      with_trace (trace w ++ [EvEncode 40 800; EvStat imagePath;
                              EvLog LInfo "Image compressed"]) w) /\
   EvEncode 20 600 ∉ two_pass_events o imagePath (files w !! imagePath)).
Proof.
  intros Hfile H1. rewrite compress_image_run. cbn [fst].
  unfold two_pass_result, two_pass_events. rewrite Hfile, H1. split.
  - intros c. destruct (Z.ltb_spec ceiling_bytes (buf_length b1)).
    + destruct (sharp_pass2 o b1) as [b2|]; [|discriminate].
      intros [= <-]. cbn [payload mk_compressed].
      destruct (Z.leb_spec (buf_length b2) ceiling_bytes); lia.
    + intros [= <-]. cbn [payload mk_compressed]. lia.
  - intros Hle. destruct (Z.ltb_spec ceiling_bytes (buf_length b1)); [lia|].
    split; [reflexivity|].
    rewrite app_nil_r. intros Hin.
    repeat (apply elem_of_cons in Hin as [Hin|Hin]; [discriminate Hin|]).
    apply elem_of_nil in Hin. exact Hin.
Qed.

Lemma C4_payload_never_grows_and_pass2_gated_witness :
  (forall c,
     fst (compress_image
            (sample_oracle (ProbeResponse 200) true true true true 1 2048 1024)
            "/app/screenshots/shot.png" world_with_png) = Return c ->
     buf_length (payload c) <= buf_length (zeros 2048)) /\
  (buf_length (zeros 2048) <= ceiling_bytes ->
   compress_image
     (sample_oracle (ProbeResponse 200) true true true true 1 2048 1024)
     "/app/screenshots/shot.png" world_with_png
   = (Return (mk_compressed (zeros 2048)),
      with_trace (trace world_with_png ++
                  [EvEncode 40 800; EvStat "/app/screenshots/shot.png";
                   EvLog LInfo "Image compressed"])
        world_with_png) /\
   EvEncode 20 600 ∉
     two_pass_events
       (sample_oracle (ProbeResponse 200) true true true true 1 2048 1024)
       "/app/screenshots/shot.png"
       (files world_with_png !! "/app/screenshots/shot.png")).
Proof.
  apply (C4_payload_never_grows_and_pass2_gated
           (sample_oracle (ProbeResponse 200) true true true true 1 2048 1024)
           "/app/screenshots/shot.png" world_with_png sample_png (zeros 2048)).
  - apply world_with_png_lookup.
  - reflexivity.
Defined.

(** C9.  The two tests made on KB values, [size / 1024 > 30] after Pass 1 and
    [size / 1024 <= 30] after Pass 2, hold exactly when the byte length is
    above, respectively at most, 30 * 1024 = 30720; so the compressor is the
    same function as the one that compares byte lengths against 30720. *)
Theorem C9_kb_tests_are_byte_tests :
  ceiling_bytes = 30720 /\
  (forall len, js_gt (kb len) (inject_Z 30) = true <-> 30720 < len) /\
  (forall len, js_le (kb len) (inject_Z 30) = true <-> len <= 30720) /\
  (forall o imagePath w,
     compress_image o imagePath w = compress_image_bytes o imagePath w).
Proof.
  split; [reflexivity|]. split; [|split].
  - intros len. rewrite js_gt_kb. unfold ceiling_bytes. apply Z.ltb_lt.
  - intros len. rewrite js_le_kb. unfold ceiling_bytes. apply Z.leb_le.
  - apply compress_image_eq_bytes.
Qed.

(** ** Publishing *)

(** C10.  When the compressor yields a payload, the upload succeeds and the
    record update returns an error, [processAndUploadImage] throws that
    error; the payload stays in the bucket under the project's key and the
    projects table is as it was. *)
Theorem C10_upload_survives_failed_record_update o imagePath projectId w c :
  fst (compress_image o imagePath w) = Return c ->
  upload_ok o = true ->
  update_ok o = false ->
  exists w',
    processAndUploadImage o imagePath projectId w = (Throw UpdateError, w') /\
    storage w' !! bucket_path projectId = Some (payload c) /\
    projects w' = projects w /\
    EvStorageUpload (bucket_path projectId) (buf_length (payload c)) ∈ trace w'.
Proof.
  intros Hc Hup Hupd. rewrite compress_image_run in Hc. cbn [fst] in Hc.
  unfold processAndUploadImage. unfold_monad.
  rewrite compress_image_run. norm_world. rewrite Hc.
  unfold upload_image, storage_remove, storage_upload, projects_update.
  unfold_monad. rewrite Hup, Hupd.
  destruct (remove_result o); norm_world;
    (eexists; split; [reflexivity|]); norm_world;
    (split; [apply lookup_insert_eq|]);
    (split; [reflexivity|]); set_solver.
Qed.

Lemma C10_upload_survives_failed_record_update_witness :
  exists w',
    processAndUploadImage
      (sample_oracle (ProbeResponse 200) true true false true 1 2048 1024)
      "/app/screenshots/shot.png" "abc123" world_with_png
    = (Throw UpdateError, w') /\
    storage w' !! bucket_path "abc123" = Some (payload (mk_compressed (zeros 2048))) /\
    projects w' = projects world_with_png /\
    EvStorageUpload (bucket_path "abc123")
      (buf_length (payload (mk_compressed (zeros 2048)))) ∈ trace w'.
Proof.
  apply (C10_upload_survives_failed_record_update
           (sample_oracle (ProbeResponse 200) true true false true 1 2048 1024)
           "/app/screenshots/shot.png" "abc123" world_with_png
           (mk_compressed (zeros 2048))).
  - rewrite compress_image_run. cbn [fst]. unfold two_pass_result.
    rewrite world_with_png_lookup. cbn [sharp_pass1 sample_oracle].
    rewrite buf_length_zeros by lia. reflexivity.
  - reflexivity.
  - reflexivity.
Defined.

(** ** Frame reasoning

    A computation [preserves] a reflexive, transitive relation between worlds
    when every run relates the world it starts in to the world it ends in,
    whatever the outcome.  The relation is closed under the monad's
    combinators, so it is enough to check the primitive steps. *)

Section Preserves.
Variable R : world -> world -> Prop.
Hypothesis R_refl : forall w, R w w.
Hypothesis R_trans : forall w1 w2 w3, R w1 w2 -> R w2 w3 -> R w1 w3.

Lemma preserves_ret {A} (a : A) : preserves R (ret a).
Proof. intros w. apply R_refl. Qed.

Lemma preserves_throw {A} (e : error) : preserves R (@throw A e).
Proof. intros w. apply R_refl. Qed.

Lemma preserves_gets {A} (f : world -> A) : preserves R (gets f).
Proof. intros w. apply R_refl. Qed.

Lemma preserves_guard (b : bool) (e : error) : preserves R (guard b e).
Proof. destruct b; intros w; apply R_refl. Qed.

Lemma preserves_modify (f : world -> world) :
  (forall w, R w (f w)) -> preserves R (modify f).
Proof. intros Hf w. apply Hf. Qed.

Lemma preserves_bind {A B} (m : M A) (k : A -> M B) :
  preserves R m -> (forall a, preserves R (k a)) -> preserves R (bind m k).
Proof.
  intros Hm Hk w. unfold bind. specialize (Hm w).
  destruct (m w) as [[a|e] w1]; cbn [snd] in *.
  - eapply R_trans; [exact Hm | apply Hk].
  - exact Hm.
Qed.

Lemma preserves_try_catch {A} (m : M A) (h : error -> M A) :
  preserves R m -> (forall e, preserves R (h e)) -> preserves R (try_catch m h).
Proof.
  intros Hm Hh w. unfold try_catch. specialize (Hm w).
  destruct (m w) as [[a|e] w1]; cbn [snd] in *.
  - exact Hm.
  - eapply R_trans; [exact Hm | apply Hh].
Qed.

Lemma preserves_detached {A} (m : M A) : preserves R m -> preserves R (detached m).
Proof. intros Hm w. apply Hm. Qed.

Lemma preserves_if {A} (b : bool) (m1 m2 : M A) :
  preserves R m1 -> preserves R m2 -> preserves R (if b then m1 else m2).
Proof. destruct b; auto. Qed.
End Preserves.

Lemma extends_refl w : extends w w.
Proof. exists []. symmetry. apply app_nil_r. Qed.

Lemma extends_trans w1 w2 w3 : extends w1 w2 -> extends w2 w3 -> extends w1 w3.
Proof.
  intros [e1 H1] [e2 H2]. exists (e1 ++ e2). rewrite H2, H1. symmetry.
  apply app_assoc.
Qed.

Lemma keeps_local_refl w : keeps_local w w.
Proof. repeat split; apply extends_refl. Qed.

Lemma keeps_local_trans w1 w2 w3 :
  keeps_local w1 w2 -> keeps_local w2 w3 -> keeps_local w1 w3.
Proof.
  intros (F1 & P1 & B1 & E1) (F2 & P2 & B2 & E2).
  repeat split; try congruence. eapply extends_trans; eassumption.
Qed.

Lemma extends_emit e : preserves extends (emit e).
Proof. intros w. exists [e]. reflexivity. Qed.

Lemma keeps_local_emit e : preserves keeps_local (emit e).
Proof. intros w. repeat split. exists [e]. reflexivity. Qed.

Lemma extends_modify f :
  (forall w, trace (f w) = trace w) -> preserves extends (modify f).
Proof.
  intros Hf w. exists []. cbn. rewrite Hf. symmetry. apply app_nil_r.
Qed.

Lemma keeps_local_modify f :
  (forall w, files (f w) = files w) ->
  (forall w, filepath (f w) = filepath w) ->
  (forall w, browser (f w) = browser w) ->
  (forall w, trace (f w) = trace w) ->
  preserves keeps_local (modify f).
Proof.
  intros Hf Hp Hb Ht w. repeat split; cbn; auto.
  exists []. rewrite Ht. symmetry. apply app_nil_r.
Qed.

Create HintDb frame discriminated.

#[local] Hint Resolve extends_refl extends_trans keeps_local_refl
  keeps_local_trans : frame.
#[local] Hint Resolve preserves_ret preserves_throw preserves_gets
  preserves_guard preserves_if preserves_detached extends_emit
  keeps_local_emit : frame.

(** Splits a computation along its combinators and closes the primitive
    steps with the hint database. *)
Ltac frame_trans := first [exact extends_trans | exact keeps_local_trans].

Ltac frame_step :=
  match goal with
  | |- preserves _ (bind _ _) =>
      apply preserves_bind; [frame_trans | | intros]
  | |- preserves _ (try_catch _ _) =>
      apply preserves_try_catch; [frame_trans | | intros]
  | |- preserves _ (match ?x with _ => _ end) => destruct x
  | |- preserves _ (let _ := _ in _) => cbv zeta
  | |- preserves _ (log _ _) => unfold log
  | |- preserves extends (modify _) =>
      apply extends_modify; intros; reflexivity
  | |- preserves keeps_local (modify _) =>
      apply keeps_local_modify; intros; reflexivity
  | |- preserves _ _ => solve [eauto with frame]
  end.

Ltac frame := repeat frame_step.

Lemma sharp_toBuffer_keeps enc q wd input :
  preserves keeps_local (sharp_toBuffer enc q wd input).
Proof. unfold sharp_toBuffer. frame. Qed.

Lemma statSync_size_keeps path : preserves keeps_local (statSync_size path).
Proof. unfold statSync_size. frame. Qed.

#[local] Hint Resolve sharp_toBuffer_keeps statSync_size_keeps : frame.

Lemma compress_image_keeps o imagePath :
  preserves keeps_local (compress_image o imagePath).
Proof. unfold compress_image. frame. Qed.

Lemma upload_image_keeps o projectId c :
  preserves keeps_local (upload_image o projectId c).
Proof.
  unfold upload_image, storage_remove, storage_upload, projects_update. frame.
Qed.

#[local] Hint Resolve compress_image_keeps upload_image_keeps : frame.

Lemma processAndUploadImage_keeps o imagePath projectId :
  preserves keeps_local (processAndUploadImage o imagePath projectId).
Proof. unfold processAndUploadImage. frame. Qed.

Lemma keeps_local_extends {A} (m : M A) :
  preserves keeps_local m -> preserves extends m.
Proof. intros H w. apply H. Qed.

Lemma wait_for_loading_extends o selectors :
  preserves extends (wait_for_loading o selectors).
Proof.
  induction selectors as [|s rest IH]; cbn [wait_for_loading]; frame.
Qed.

#[local] Hint Resolve wait_for_loading_extends : frame.

Lemma processAndUploadImage_extends o imagePath projectId :
  preserves extends (processAndUploadImage o imagePath projectId).
Proof. apply keeps_local_extends, processAndUploadImage_keeps. Qed.

Lemma statSync_size_extends path : preserves extends (statSync_size path).
Proof. apply keeps_local_extends, statSync_size_keeps. Qed.

#[local] Hint Resolve processAndUploadImage_extends statSync_size_extends : frame.

Lemma unlinkSync_extends o path : preserves extends (unlinkSync o path).
Proof. unfold unlinkSync. frame. Qed.

#[local] Hint Resolve unlinkSync_extends : frame.

Lemma capture_and_publish_extends o id appUrl :
  preserves extends (capture_and_publish o id appUrl).
Proof.
  unfold capture_and_publish, page_screenshot, browser_close. frame.
Qed.

Lemma on_error_extends o e : preserves extends (on_error o e).
Proof. unfold on_error, existsSync. frame. Qed.

Lemma check_availability_extends o appUrl :
  preserves extends (check_availability o appUrl).
Proof. unfold check_availability. frame. Qed.

#[local] Hint Resolve capture_and_publish_extends on_error_extends
  check_availability_extends : frame.

Lemma processScreenshotAsync_extends o id startTime :
  preserves extends (processScreenshotAsync o id startTime).
Proof. unfold processScreenshotAsync. frame. Qed.

(** ** The route handler *)

Lemma truthy_nonempty (s : string) : s <> "" -> truthy s = true.
Proof. destruct s; [congruence | reflexivity]. Qed.

(** C5.  A request whose body carries a non-empty [project_id] is answered
    with status 200 and the body [{status: "processing", message, app_name,
    project_id}] before the pipeline is started: the pipeline runs from the
    world in which the response is already in the trace, and everything it
    does is appended after it. *)
Theorem C5_response_precedes_pipeline o req b id w :
  body req = Some b ->
  b !! "project_id" = Some id ->
  id <> "" ->
  let acknowledged :=
    with_trace
      (trace w ++
       [EvLog LInfo "New screenshot request received";
        EvResponse 200
          (BodyProcessing "processing"
             "Screenshot request received and is being processed"
             ("kulp-" +:+ id) id);
        EvLog LInfo "Immediate response sent, processing screenshot asynchronously"])
      w in
  take_screenshot o req w
  = (Return tt, snd (processScreenshotAsync o id (hrtime o) acknowledged)) /\
  exists pipeline_events,
    trace (snd (take_screenshot o req w))
    = trace acknowledged ++ pipeline_events.
Proof.
  intros Hb Hid Hne. cbv zeta.
  assert (E : take_screenshot o req w
              = (Return tt,
                 snd (processScreenshotAsync o id (hrtime o)
                        (with_trace
                           (trace w ++
                            [EvLog LInfo "New screenshot request received";
                             EvResponse 200
                               (BodyProcessing "processing"
                                  "Screenshot request received and is being processed"
                                  ("kulp-" +:+ id) id);
                             EvLog LInfo
                               "Immediate response sent, processing screenshot asynchronously"])
                           w)))).
  { unfold take_screenshot, detached. unfold_monad. rewrite Hb. norm_world.
    rewrite Hid, (truthy_nonempty id Hne). cbn [negb]. norm_world.
    rewrite <- !app_assoc. reflexivity. }
  split; [exact E|]. rewrite E. cbn [snd].
  apply processScreenshotAsync_extends.
Qed.

Lemma C5_response_precedes_pipeline_witness :
  take_screenshot
    (sample_oracle (ProbeResponse 200) true true true true 1 2048 1024)
    (sample_request "abc123") idle_world
  = (Return tt,
     snd (processScreenshotAsync
            (sample_oracle (ProbeResponse 200) true true true true 1 2048 1024)
            "abc123" 1
            (with_trace
               (trace idle_world ++
                [EvLog LInfo "New screenshot request received";
                 EvResponse 200
                   (BodyProcessing "processing"
                      "Screenshot request received and is being processed"
                      "kulp-abc123" "abc123");
                 EvLog LInfo
                   "Immediate response sent, processing screenshot asynchronously"])
               idle_world))).
Proof.
  apply (C5_response_precedes_pipeline
           (sample_oracle (ProbeResponse 200) true true true true 1 2048 1024)
           (sample_request "abc123") {[ "project_id" := "abc123" ]} "abc123"
           idle_world).
  - reflexivity.
  - apply lookup_singleton_eq.
  - discriminate.
Defined.

(** C6.  A request whose body has no [project_id] field is answered with
    status 400 and an error body, and nothing else happens: the world is the
    one before the request, with two log lines and the response added to the
    trace. *)
Theorem C6_missing_id_is_rejected o req b w :
  body req = Some b ->
  b !! "project_id" = None ->
  take_screenshot o req w
  = (Return tt,
     with_trace
       (trace w ++
        [EvLog LInfo "New screenshot request received";
         EvLog LWarn "Request rejected: Missing ID";
         EvResponse 400 (BodyError "ID is required in request body")])
       w).
Proof.
  intros Hb Hid. unfold take_screenshot. unfold_monad. rewrite Hb. norm_world.
  rewrite Hid. norm_world. rewrite <- !app_assoc. reflexivity.
Qed.

Lemma C6_missing_id_is_rejected_witness :
  take_screenshot
    (sample_oracle (ProbeResponse 200) true true true true 1 2048 1024)
    empty_request idle_world
  = (Return tt,
     with_trace
       (trace idle_world ++
        [EvLog LInfo "New screenshot request received";
         EvLog LWarn "Request rejected: Missing ID";
         EvResponse 400 (BodyError "ID is required in request body")])
       idle_world).
Proof.
  apply (C6_missing_id_is_rejected
           (sample_oracle (ProbeResponse 200) true true true true 1 2048 1024)
           empty_request ∅ idle_world).
  - reflexivity.
  - apply lookup_empty.
Defined.

(** ** The pipeline *)

(** C7.  When the probe throws or answers with a status outside 200-299,
    the pipeline returns after the probe: the calls it made are the fetch
    and two log lines, and the browser, the transient directory, the bucket
    and the projects table are untouched. *)
Theorem C7_failed_probe_stops_pipeline o id startTime w :
  probe_fails o = true ->
  exists l msg,
    processScreenshotAsync o id startTime w
    = (Return tt,
       with_trace
         (trace w ++
          [EvLog LInfo "Checking availability";
           EvFetch (app_url id +:+ "?_health_check=" +:+ pretty (now_health o));
           EvLog l msg])
         (with_filepath None w)).
Proof.
  intros Hp. unfold probe_fails in Hp.
  unfold processScreenshotAsync, check_availability. unfold_monad.
  destruct (probe o) as [status|].
  - rewrite Hp. norm_world. eexists _, _. rewrite <- !app_assoc. reflexivity.
  - norm_world. eexists _, _. rewrite <- !app_assoc. reflexivity.
Qed.

Lemma C7_failed_probe_stops_pipeline_witness :
  exists l msg,
    processScreenshotAsync
      (sample_oracle (ProbeResponse 503) true true true true 1 2048 1024)
      "xyz" 1 idle_world
    = (Return tt,
       with_trace
         (trace idle_world ++
          [EvLog LInfo "Checking availability";
           EvFetch (app_url "xyz" +:+ "?_health_check=" +:+
                    pretty (now_health
                              (sample_oracle (ProbeResponse 503) true true true
                                 true 1 2048 1024)));
           EvLog l msg])
         (with_filepath None idle_world)).
Proof.
  apply (C7_failed_probe_stops_pipeline
           (sample_oracle (ProbeResponse 503) true true true true 1 2048 1024)
           "xyz" 1 idle_world).
  reflexivity.
Defined.

Lemma wait_for_loading_run o selectors w :
  wait_for_loading o selectors w
  = (Return tt, with_trace (trace w ++ map EvWaitForFunction selectors) w).
Proof.
  revert w. induction selectors as [|s rest IH]; intros w.
  - cbn [wait_for_loading map]. unfold ret, with_trace. rewrite app_nil_r.
    destruct w; reflexivity.
  - cbn [wait_for_loading map]. unfold_monad.
    destruct (selector_gone o s); norm_world; rewrite IH; norm_world;
      rewrite <- app_assoc; reflexivity.
Qed.

Lemma path_join_truthy a b : truthy (path_join a b) = true.
Proof. destruct a; reflexivity. Qed.

Lemma on_error_returns o e w : fst (on_error o e w) = Return tt.
Proof.
  unfold on_error, existsSync, unlinkSync. unfold_monad. norm_world.
  destruct (filepath w) as [p|]; [|reflexivity].
  destruct (truthy p); [|reflexivity]. norm_world.
  destruct (files w !! p) eqn:Hp; [|reflexivity]. norm_world. rewrite Hp.
  destruct (unlink_ok o); reflexivity.
Qed.


(** Evaluation of setters and projections on a world given by its fields. *)
Ltac eval_world :=
  cbv beta iota zeta delta
    [with_trace with_browser with_files with_storage with_projects
     with_filepath browser files storage projects filepath trace negb].

Ltac c3_eval :=
  repeat (progress (eval_world; rewrite ?lookup_insert_eq));
  repeat match goal with
         | H : truthy _ = true |- _ => rewrite H; eval_world
         end;
  repeat (progress (eval_world; rewrite ?lookup_insert_eq)).

(** Membership in a list written out up to a few appended variables. *)
Ltac in_list :=
  repeat first
    [ apply list_elem_of_here
    | apply list_elem_of_further
    | apply elem_of_app; right ].

Ltac c3_finish :=
  eexists _, _; split; [reflexivity|];
  cbv beta iota; rewrite <- ?app_assoc; cbn [app];
  split; [reflexivity|];
  split; [in_list|];
  split; intros Hu;
  [ first [discriminate Hu | apply lookup_delete_eq]
  | first [ discriminate Hu
          | exists "Failed to cleanup screenshot file:"; solve [in_list]
          | exists "Failed to cleanup screenshot file after error:";
            solve [in_list] ] ].

(** C3.  In every run that reaches the capture and in which
    [page.screenshot] writes the file, the pipeline ends normally, it calls
    [unlinkSync] on the file's path on whichever way it leaves, the file is
    gone when that call succeeds, and when it fails a warning is logged and
    nothing is thrown. *)
Theorem C3_artifact_cleanup_on_every_path o id startTime w :
  reaches_capture o = true ->
  writes_file o = true ->
  exists w' evs,
    processScreenshotAsync o id startTime w = (Return tt, w') /\
    trace w' = trace w ++ evs /\
    EvUnlink (artifact_path o id) ∈ evs /\
    (unlink_ok o = true -> files w' !! artifact_path o id = None) /\
    (unlink_ok o = false -> exists msg, EvLog LWarn msg ∈ evs).
Proof.
  unfold reaches_capture, probe_fails, writes_file.
  intros Hr Hw. repeat (apply andb_true_iff in Hr as [Hr ?]).
  apply negb_true_iff in Hr.
  destruct w as [br fs st pr fp tr].
  destruct (probe o) as [status|] eqn:Hprobe; [|discriminate].
  apply negb_false_iff in Hr.
  unfold processScreenshotAsync, check_availability, capture_and_publish.
  rewrite Hprobe.
  repeat match goal with H : _ = true |- _ => rewrite H end.
  unfold on_error, page_screenshot, browser_close, statSync_size, unlinkSync,
    existsSync.
  unfold_monad.
  eval_world. rewrite wait_for_loading_run. eval_world.
  fold (artifact_path o id).
  assert (Htruthy : truthy (artifact_path o id) = true)
    by apply path_join_truthy.
  set (p := artifact_path o id) in *.
  assert (Hshot : exists png,
             match shot o with
             | ShotSaved png => Some png
             | ShotFailed partial => partial
             end = Some png).
  { destruct (shot o) as [png|[b|]]; eauto. discriminate. }
  destruct Hshot as [png Hshot].
  destruct (shot o) as [png'|partial]; [injection Hshot as -> | subst partial].
  - c3_eval.
    destruct (close_ok o); c3_eval.
    + match goal with
      | |- context [processAndUploadImage o p id ?W] =>
          pose proof (processAndUploadImage_keeps o p id W) as K;
          destruct (processAndUploadImage o p id W)
            as [r [br' fs' st' pr' fp' tr']]
      end.
      destruct K as (Kf & Kp & Kb & [evs Kt]). cbn in Kf, Kp, Kb, Kt. subst.
      destruct r as [res|e]; c3_eval; destruct (unlink_ok o); c3_eval;
        c3_finish.
    + destruct (unlink_ok o); c3_eval; c3_finish.
  - c3_eval. destruct (unlink_ok o); c3_eval; c3_finish.
Qed.

Lemma C3_artifact_cleanup_on_every_path_witness :
  exists w' evs,
    processScreenshotAsync
      (sample_oracle (ProbeResponse 200) true false true true 1 2048 1024)
      "abc123" 1 idle_world
    = (Return tt, w') /\
    trace w' = trace idle_world ++ evs /\
    EvUnlink
      (artifact_path
         (sample_oracle (ProbeResponse 200) true false true true 1 2048 1024)
         "abc123") ∈ evs /\
    (unlink_ok
       (sample_oracle (ProbeResponse 200) true false true true 1 2048 1024)
     = true ->
     files w' !!
       artifact_path
         (sample_oracle (ProbeResponse 200) true false true true 1 2048 1024)
         "abc123" = None) /\
    (unlink_ok
       (sample_oracle (ProbeResponse 200) true false true true 1 2048 1024)
     = false ->
     exists msg, EvLog LWarn msg ∈ evs).
Proof.
  apply (C3_artifact_cleanup_on_every_path
           (sample_oracle (ProbeResponse 200) true false true true 1 2048 1024)
           "abc123" 1 idle_world).
  - reflexivity.
  - reflexivity.
Defined.

(** X3.  An empty [project_id] is falsy and rejected like a missing one:
    status 400, two log lines, and nothing else. *)
Lemma empty_id_is_rejected o req b w :
  body req = Some b ->
  b !! "project_id" = Some "" ->
  take_screenshot o req w
  = (Return tt,
     with_trace
       (trace w ++
        [EvLog LInfo "New screenshot request received";
         EvLog LWarn "Request rejected: Missing ID";
         EvResponse 400 (BodyError "ID is required in request body")])
       w).
Proof.
  intros Hb Hid. unfold take_screenshot. unfold_monad. rewrite Hb. norm_world.
  rewrite Hid. cbn [truthy String.eqb negb]. norm_world.
  rewrite <- !app_assoc. reflexivity.
Qed.

(** Without a parsed body the destructuring at line 135 throws and the
    handler answers 500; the pipeline is not started either. *)
Lemma absent_body_is_a_500 o req w :
  body req = None ->
  take_screenshot o req w
  = (Return tt,
     with_trace
       (trace w ++
        [EvLog LInfo "New screenshot request received";
         EvLog LError "Request handling error:";
         EvResponse 500 (BodyError "Failed to process screenshot request")])
       w).
Proof.
  intros Hb. unfold take_screenshot. unfold_monad. rewrite Hb. norm_world.
  rewrite <- !app_assoc. reflexivity.
Qed.

(** ** The browser session *)

(** When navigation fails after a successful launch, the [catch] block
    runs without a call to [browser.close()]: the browser stays launched. *)
Lemma failed_navigation_leaves_browser_launched o id startTime w :
  probe_fails o = false ->
  launch_ok o = true -> newpage_ok o = true -> viewport_ok o = true ->
  goto_ok o = false ->
  processScreenshotAsync o id startTime w
  = (Return tt,
     with_browser Launched
       (with_filepath None
          (with_trace
             (trace w ++
              [EvLog LInfo "Checking availability";
               EvFetch (app_url id +:+ "?_health_check=" +:+ pretty (now_health o));
               EvLog LInfo "Launching browser...";
               EvLaunch;
               EvLog LInfo "Browser launched";
               EvNewPage;
               EvLog LInfo "New page created";
               EvSetViewport 1920 1080;
               EvLog LInfo "Viewport set to 1920x1080";
               EvLog LInfo "Navigating";
               EvGoto (app_url id +:+ "?_screenshot=" +:+ pretty (now_goto o));
               EvLog LError "Screenshot processing error:";
               EvLog LError "Stack trace:";
               EvLog LError "Screenshot processing failed"])
             w))).
Proof.
  unfold probe_fails. intros Hp Hl Hn Hv Hg.
  destruct w as [br fs st pr fp tr].
  destruct (probe o) as [status|] eqn:Hprobe; [|discriminate].
  unfold processScreenshotAsync, check_availability, capture_and_publish.
  rewrite Hprobe, Hp, Hl, Hn, Hv, Hg.
  unfold on_error. unfold_monad.
  eval_world. rewrite <- !app_assoc. reflexivity.
Qed.

(** C2, on a run in which it fails.  The probe answers 200, the browser
    launches and navigation times out: the pipeline ends with the browser
    still launched and no call to [browser.close()] in its trace. *)
Theorem C2_browser_left_open_when_navigation_fails :
  exists w',
    processScreenshotAsync
      (sample_oracle (ProbeResponse 200) false true true true 1 2048 1024)
      "abc123" 1 idle_world
    = (Return tt, w') /\
    EvLaunch ∈ trace w' /\
    browser w' = Launched /\
    EvBrowserClose ∉ trace w'.
Proof.
  eexists. split.
  - apply failed_navigation_leaves_browser_launched; reflexivity.
  - cbn [with_browser with_filepath with_trace trace browser idle_world app].
    split; [in_list|]. split; [reflexivity|].
    intros Hin.
    repeat (apply elem_of_cons in Hin as [Hin|Hin]; [discriminate Hin|]).
    apply elem_of_nil in Hin. exact Hin.
Qed.

(** ** The transient file's path *)

(** C8, on a pair of requests for which it fails.  Two requests (distinct
    start times) for the same identifier that reach line 252 in the same
    millisecond get the same path; the run of one of them, started when the
    other's file is in the directory, ends with that path removed, and the
    other's compression then finds no input. *)
Theorem C8_same_id_same_millisecond_share_a_path :
  let oA := sample_oracle (ProbeResponse 200) true true true true 1 2048 1024 in
  let oB := sample_oracle (ProbeResponse 200) true true true true 2 2048 1024 in
  let p := "/app/screenshots/screenshot-abc123-1700000003000.png" in
  let after_A :=
    snd (processScreenshotAsync oA "abc123" (hrtime oA)
           (with_files {[ p := sample_png ]} idle_world)) in
  hrtime oA <> hrtime oB /\
  artifact_path oA "abc123" = p /\
  artifact_path oB "abc123" = p /\
  filepath (snd (processScreenshotAsync oA "abc123" (hrtime oA) idle_world))
  = Some p /\
  filepath (snd (processScreenshotAsync oB "abc123" (hrtime oB) idle_world))
  = Some p /\
  files after_A !! p = None /\
  fst (processAndUploadImage oB p "abc123" after_A) = Throw ImageProcessingError.
Proof.
  cbv zeta. split; [discriminate|].
  repeat split; vm_compute; reflexivity.
Qed.

(** ** When two paths coincide *)

Lemma chars_app (s1 s2 : string) :
  chars (s1 +:+ s2)
  = chars s1 ++ chars s2.
Proof.
  induction s1 as [|c s1 IH]; [reflexivity|].
  change (c :: chars (s1 +:+ s2) = c :: (chars s1 ++ chars s2)).
  f_equal. exact IH.
Qed.

Lemma chars_inj (s1 s2 : string) :
  chars s1 = chars s2 -> s1 = s2.
Proof.
  intros H. rewrite <- (Stdlib.Strings.String.string_of_list_ascii_of_string s1),
    <- (Stdlib.Strings.String.string_of_list_ascii_of_string s2), H. reflexivity.
Qed.

(** The decimal digits of a natural number contain no dash. *)
Lemma pretty_N_go_no_dash (x : N) (s : string) :
  dash ∉ chars s ->
  dash ∉ chars (pretty_N_go x s).
Proof.
  revert s. induction (N.lt_wf_0 x) as [x _ IH]. intros s Hs.
  destruct (N.eq_dec x 0%N) as [->|Hx].
  - rewrite pretty_N_go_0. exact Hs.
  - rewrite pretty_N_go_step by lia. apply IH.
    + apply N.div_lt; lia.
    + cbn [chars]. rewrite not_elem_of_cons. split; [|exact Hs].
      unfold pretty_N_char, dash. repeat case_match; discriminate.
Qed.

Lemma pretty_timestamp_no_dash (t : Z) :
  0 <= t -> dash ∉ chars (pretty t).
Proof.
  intros Ht. destruct t as [|p|p]; [| |lia].
  - cbn. rewrite not_elem_of_cons. split; [discriminate|apply not_elem_of_nil].
  - unfold pretty, pretty_Z, pretty, pretty_positive, pretty, pretty_N.
    case_decide; [discriminate|].
    apply pretty_N_go_no_dash. apply not_elem_of_nil.
Qed.

(** A list is split in one way only at its last dash. *)
Lemma split_at_last_dash (i1 i2 d1 d2 : list Ascii.ascii) :
  dash ∉ d1 -> dash ∉ d2 ->
  i1 ++ dash :: d1 = i2 ++ dash :: d2 ->
  i1 = i2 /\ d1 = d2.
Proof.
  intros H1 H2. revert i2.
  induction i1 as [|c i1 IH]; intros [|c' i2] E; cbn [app] in E.
  - injection E as ->. split; reflexivity.
  - injection E as <- ->. exfalso. apply H1. apply elem_of_app. right.
    apply list_elem_of_here.
  - injection E as -> <-. exfalso. apply H2. apply elem_of_app. right.
    apply list_elem_of_here.
  - injection E as -> E. destruct (IH i2 E) as [-> ->]. split; reflexivity.
Qed.

Lemma screenshot_filename_inj (id1 id2 : string) (t1 t2 : Z) :
  0 <= t1 -> 0 <= t2 ->
  screenshot_filename id1 t1 = screenshot_filename id2 t2 ->
  id1 = id2 /\ t1 = t2.
Proof.
  intros Ht1 Ht2. unfold screenshot_filename. intros E.
  apply (inj (String.app "screenshot-")) in E.
  apply (f_equal chars) in E.
  rewrite !chars_app in E.
  change (chars "-") with [dash] in E.
  rewrite !(app_assoc _ [dash]), !app_assoc in E.
  apply app_inv_tail in E. rewrite <- !app_assoc in E. cbn [app] in E.
  apply split_at_last_dash in E as [Ei Et];
    [| apply pretty_timestamp_no_dash; assumption ..].
  split.
  - apply chars_inj, Ei.
  - apply (inj pretty). apply chars_inj, Et.
Qed.

(** Within one process (one [__dirname]) and for identifiers that
    [path.join] leaves as they are, the paths of two runs coincide only when
    both the identifier and the millisecond read at line 252 coincide. *)
Lemma artifact_path_inj (o1 o2 : oracle) (id1 id2 : string) :
  dirname o1 = dirname o2 ->
  0 <= now_file o1 -> 0 <= now_file o2 ->
  artifact_path o1 id1 = artifact_path o2 id2 ->
  id1 = id2 /\ now_file o1 = now_file o2.
Proof.
  intros Hd H1 H2. unfold artifact_path, screenshotsDir, path_join.
  rewrite Hd. intros E.
  apply (inj (String.app _)) in E. apply (inj (String.app _)) in E.
  apply screenshot_filename_inj; assumption.
Qed.

(** ** Publishing: outcomes and order *)

Lemma upload_image_run o projectId c w :
  upload_image o projectId c w
    = (if upload_ok o then
         if update_ok o then
           Return {| success := true;
                     url := public_url_of o
                              (bucket_path projectId +:+ "?v=" +:+
                               pretty (now_version o));
                     size := size_kb c |}
         else Throw UpdateError
       else Throw UploadError,
       let key := bucket_path projectId in
       let publicUrl :=
         public_url_of o (key +:+ "?v=" +:+ pretty (now_version o)) in
       let s0 := match remove_result o with
                 | RemoveDone => delete key (storage w)
                 | _ => storage w
                 end in
       with_projects
         (if upload_ok o && update_ok o then
            match projects w !! projectId with
            | Some _ =>
                <[projectId := {| screenshot := publicUrl;
                                  updated_at := now_updated o |}]> (projects w)
            | None => projects w
            end
          else projects w)
         (with_storage (if upload_ok o then <[key := payload c]> s0 else s0)
            (with_trace
               (trace w ++
                [EvStorageRemove key; removal_log o;
                 EvStorageUpload key (buf_length (payload c))] ++
                (if upload_ok o then
                   EvDbUpdate projectId publicUrl ::
                   (if update_ok o
                    then [EvLog LInfo "Image processed and uploaded"]
                    else [])
                 else []))
               w))).
Proof.
  destruct w as [br fs st pr fp tr].
  unfold upload_image, storage_remove, storage_upload, projects_update.
  unfold_monad.
  unfold removal_log.
  destruct (remove_result o), (upload_ok o), (update_ok o);
    eval_world; cbn [andb removal_log]; rewrite <- ?app_assoc; cbn [app];
    try rewrite Hr; reflexivity.
Qed.

Lemma two_pass_events_local o imagePath input :
  Forall (fun e => is_db_update e = false /\ is_storage_call e = false)
    (two_pass_events o imagePath input).
Proof.
  unfold two_pass_events.
  destruct input as [png|]; [|repeat constructor].
  destruct (sharp_pass1 o png) as [b1|]; [|repeat constructor].
  destruct (ceiling_bytes <? buf_length b1); [|repeat constructor].
  destruct (sharp_pass2 o b1); repeat constructor.
Qed.

(** What [processAndUploadImage] does, in terms of the two passes and of
    the publishing step. *)
Lemma processAndUploadImage_run o imagePath projectId w :
  processAndUploadImage o imagePath projectId w
  = let started :=
      with_trace
        (trace w ++
         EvLog LInfo "Processing and uploading image to Supabase..." ::
         two_pass_events o imagePath (files w !! imagePath)) w in
    match two_pass_result o (files w !! imagePath) with
    | Throw e =>
        (Throw e,
         with_trace
           (trace started ++ [EvLog LError "Error processing/uploading image:"])
           started)
    | Return c =>
        match upload_image o projectId c started with
        | (Return r, w') => (Return r, w')
        | (Throw e, w') =>
            (Throw e,
             with_trace
               (trace w' ++ [EvLog LError "Error processing/uploading image:"])
               w')
        end
    end.
Proof.
  destruct w as [br fs st pr fp tr].
  unfold processAndUploadImage. unfold_monad. rewrite compress_image_run.
  eval_world. rewrite <- app_assoc. cbn [app].
  destruct (two_pass_result o (fs !! imagePath)) as [c|e]; [|reflexivity].
  destruct (upload_image o projectId c _) as [[r|e] w']; reflexivity.
Qed.

(** X5.  What publishing returns is decided by the upload and the record
    update alone: whether the removal of the previous object succeeds,
    returns an error or throws, the upload is attempted with the payload and
    the result is the upload's error, else the update's error, else the
    public URL with its version parameter and the payload's size. *)
Theorem publish_outcome_ignores_removal o projectId c w :
  fst (upload_image o projectId c w)
  = (if upload_ok o then
       if update_ok o then
         Return {| success := true;
                   url := public_url_of o
                            (bucket_path projectId +:+ "?v=" +:+
                             pretty (now_version o));
                   size := size_kb c |}
       else Throw UpdateError
     else Throw UploadError) /\
  exists before after,
    trace (snd (upload_image o projectId c w))
    = trace w ++ before ++
      EvStorageUpload (bucket_path projectId) (buf_length (payload c)) :: after.
Proof.
  rewrite upload_image_run.
  split; [reflexivity|]. cbv zeta. cbn [snd].
  exists [EvStorageRemove (bucket_path projectId); removal_log o]. eexists.
  destruct w as [br fs st pr fp tr]. eval_world. reflexivity.
Qed.

Lemma removal_log_is_log o :
  is_db_update (removal_log o) = false /\ is_storage_call (removal_log o) = false.
Proof. unfold removal_log. destruct (remove_result o); split; reflexivity. Qed.

(** X6.  When the upload returns an error, [processAndUploadImage] throws it
    without calling the record update: the projects table is as it was, and
    if the removal had succeeded the key is left without an object. *)
Theorem failed_upload_skips_record_update o imagePath projectId w c :
  fst (compress_image o imagePath w) = Return c ->
  upload_ok o = false ->
  exists w' evs,
    processAndUploadImage o imagePath projectId w = (Throw UploadError, w') /\
    trace w' = trace w ++ evs /\
    Forall (fun e => is_db_update e = false) evs /\
    projects w' = projects w /\
    (remove_result o = RemoveDone ->
     storage w' !! bucket_path projectId = None).
Proof.
  intros Hc Hup. rewrite compress_image_run in Hc. cbn [fst] in Hc.
  rewrite processAndUploadImage_run. cbv zeta. rewrite Hc.
  rewrite upload_image_run, Hup. cbv zeta. cbn [andb].
  destruct w as [br fs st pr fp tr]. eval_world.
  eexists _, _. split; [reflexivity|]. cbv beta iota.
  rewrite <- !app_assoc. cbn [app].
  split; [reflexivity|]. split; [|split; [reflexivity|]].
  - constructor; [reflexivity|]. apply Forall_app. split.
    + eapply Forall_impl; [apply two_pass_events_local|]. intros e [H _]. exact H.
    + repeat constructor. apply removal_log_is_log.
  - intros ->. apply lookup_delete_eq.
Qed.

(** X7.  When an encoding pass throws, [processAndUploadImage] throws an
    image processing error and makes no call to the bucket or the table:
    there is no fallback to the captured file. *)
Theorem encode_failure_publishes_nothing o imagePath projectId w e :
  fst (compress_image o imagePath w) = Throw e ->
  exists w' evs,
    processAndUploadImage o imagePath projectId w
    = (Throw ImageProcessingError, w') /\
    e = ImageProcessingError /\
    trace w' = trace w ++ evs /\
    Forall (fun ev => is_storage_call ev = false /\ is_db_update ev = false) evs /\
    storage w' = storage w /\
    projects w' = projects w.
Proof.
  intros Hc. rewrite compress_image_run in Hc. cbn [fst] in Hc.
  assert (He : e = ImageProcessingError).
  { revert Hc. unfold two_pass_result.
    repeat (case_match; try discriminate); congruence. }
  subst e.
  rewrite processAndUploadImage_run. cbv zeta. rewrite Hc.
  destruct w as [br fs st pr fp tr]. eval_world.
  eexists _, _. split; [reflexivity|]. cbv beta iota.
  rewrite <- !app_assoc. cbn [app].
  split; [reflexivity|]. split; [reflexivity|]. split; [|split; reflexivity].
  constructor; [split; reflexivity|]. apply Forall_app. split.
  - eapply Forall_impl; [apply two_pass_events_local|]. intros ev [H1 H2].
    split; assumption.
  - repeat constructor.
Qed.

(** ** The compressor: what is returned *)

(** X8.  A payload returned by the compressor is the output of Pass 1, or
    the output of Pass 2 run on an over-ceiling Pass 1 output, never the
    input file; and the size reported with it is its own length over
    1024. *)
Theorem compressed_payload_comes_from_sharp o imagePath w c :
  fst (compress_image o imagePath w) = Return c ->
  size_kb c = kb (buf_length (payload c)) /\
  exists png b1,
    files w !! imagePath = Some png /\
    sharp_pass1 o png = Some b1 /\
    (payload c = b1 \/
     (ceiling_bytes < buf_length b1 /\ sharp_pass2 o b1 = Some (payload c))).
Proof.
  rewrite compress_image_run. cbn [fst]. unfold two_pass_result.
  destruct (files w !! imagePath) as [png|] eqn:Hf; [|discriminate].
  destruct (sharp_pass1 o png) as [b1|] eqn:H1; [|discriminate].
  destruct (Z.ltb_spec ceiling_bytes (buf_length b1)) as [Hover|Hle].
  - destruct (sharp_pass2 o b1) as [b2|] eqn:H2; [|discriminate].
    intros [= <-]. split; [reflexivity|]. exists png, b1.
    split; [reflexivity|]. split; [exact H1|].
    cbn [payload mk_compressed].
    destruct (buf_length b2 <=? ceiling_bytes); [right|left]; auto.
  - intros [= <-]. split; [reflexivity|]. exists png, b1.
    split; [reflexivity|]. split; [exact H1|]. left. reflexivity.
Qed.

(** X9.  When both passes can encode, the compressor returns a payload, and
    that payload is at or under the ceiling exactly when Pass 1's output or
    Pass 2's output is: two passes over the ceiling yield a payload over
    it. *)
Theorem payload_meets_ceiling_iff_a_pass_does o imagePath w png b1 b2 :
  files w !! imagePath = Some png ->
  sharp_pass1 o png = Some b1 ->
  sharp_pass2 o b1 = Some b2 ->
  exists c,
    fst (compress_image o imagePath w) = Return c /\
    (buf_length (payload c) <= ceiling_bytes <->
     buf_length b1 <= ceiling_bytes \/ buf_length b2 <= ceiling_bytes).
Proof.
  intros Hf H1 H2. rewrite compress_image_run. cbn [fst].
  unfold two_pass_result. rewrite Hf, H1.
  destruct (Z.ltb_spec ceiling_bytes (buf_length b1)) as [Hover|Hle].
  - rewrite H2. eexists. split; [reflexivity|]. cbn [payload mk_compressed].
    destruct (Z.leb_spec (buf_length b2) ceiling_bytes); lia.
  - eexists. split; [reflexivity|]. cbn [payload mk_compressed]. lia.
Qed.

(** ** Keys and URLs *)

Lemma string_app_inv_tail (s1 s2 t : string) : s1 +:+ t = s2 +:+ t -> s1 = s2.
Proof.
  intros E. apply chars_inj. apply (f_equal chars) in E.
  rewrite !chars_app in E. apply app_inv_tail in E. exact E.
Qed.

(** X10.  Distinct project identifiers give distinct storage keys and
    distinct target URLs. *)
Theorem distinct_projects_have_distinct_keys (id1 id2 : string) :
  id1 <> id2 ->
  bucket_path id1 <> bucket_path id2 /\ app_url id1 <> app_url id2.
Proof.
  intros Hne. unfold bucket_path, app_url. split; intros E; apply Hne.
  - apply (inj (String.app "screenshots/")) in E.
    apply string_app_inv_tail in E. exact E.
  - apply (inj (String.app "https://kulp-")) in E.
    apply string_app_inv_tail in E. exact E.
Qed.

(** ** Publishing twice *)

(** X11.  Publishing twice for one identifier, both times with success,
    leaves the bucket as it was with the second payload under the
    identifier's key, and the project's row, if there is one, with the second
    URL; no row is created. *)
Theorem republishing_overwrites o1 o2 projectId c1 c2 w :
  upload_ok o1 = true -> update_ok o1 = true ->
  upload_ok o2 = true -> update_ok o2 = true ->
  exists r1 w1 r2 w2,
    upload_image o1 projectId c1 w = (Return r1, w1) /\
    upload_image o2 projectId c2 w1 = (Return r2, w2) /\
    storage w2 = <[bucket_path projectId := payload c2]> (storage w) /\
    (forall row, projects w !! projectId = Some row ->
       projects w2 !! projectId
       = Some {| screenshot := url r2; updated_at := now_updated o2 |}) /\
    (projects w !! projectId = None -> projects w2 = projects w).
Proof.
  intros Hu1 Hd1 Hu2 Hd2.
  rewrite (upload_image_run o1), Hu1, Hd1. cbv zeta. cbn [andb].
  eexists _, _. rewrite (upload_image_run o2), Hu2, Hd2. cbv zeta. cbn [andb].
  eexists _, _. split; [reflexivity|]. split; [reflexivity|].
  destruct w as [br fs st pr fp tr]. eval_world. cbn [url].
  split; [|split].
  - destruct (remove_result o1), (remove_result o2);
      rewrite ?delete_insert_eq, ?insert_delete_eq, ?insert_insert_eq;
      rewrite ?insert_delete_eq; reflexivity.
  - intros row Hrow. rewrite Hrow, lookup_insert_eq. apply lookup_insert_eq.
  - intros Hnone. rewrite Hnone, Hnone. reflexivity.
Qed.

(** ** The handler answers once *)

Lemma no_response_refl w : no_response w w.
Proof. exists []. split; [symmetry; apply app_nil_r | constructor]. Qed.

Lemma no_response_trans w1 w2 w3 :
  no_response w1 w2 -> no_response w2 w3 -> no_response w1 w3.
Proof.
  intros (e1 & H1 & F1) (e2 & H2 & F2). exists (e1 ++ e2). split.
  - rewrite H2, H1. symmetry. apply app_assoc.
  - apply Forall_app. split; assumption.
Qed.

Lemma no_response_emit e :
  is_response e = false -> preserves no_response (emit e).
Proof.
  intros He w. exists [e]. split; [reflexivity|]. repeat constructor. exact He.
Qed.

Lemma no_response_modify f :
  (forall w, trace (f w) = trace w) -> preserves no_response (modify f).
Proof.
  intros Hf w. exists []. cbn. rewrite Hf.
  split; [symmetry; apply app_nil_r | constructor].
Qed.

Ltac quiet_step :=
  match goal with
  | |- preserves _ (bind _ _) =>
      apply preserves_bind; [exact no_response_trans | | intros]
  | |- preserves _ (try_catch _ _) =>
      apply preserves_try_catch; [exact no_response_trans | | intros]
  | |- preserves _ (match ?x with _ => _ end) => destruct x
  | |- preserves _ (let _ := _ in _) => cbv zeta
  | |- preserves _ (log _ _) => unfold log
  | |- preserves _ (emit _) => apply no_response_emit; reflexivity
  | |- preserves _ (modify _) => apply no_response_modify; intros; reflexivity
  | |- preserves _ (ret _) => apply preserves_ret; exact no_response_refl
  | |- preserves _ (throw _) => apply preserves_throw; exact no_response_refl
  | |- preserves _ (gets _) => apply preserves_gets; exact no_response_refl
  | |- preserves _ (guard _ _) => apply preserves_guard; exact no_response_refl
  | |- preserves _ _ => assumption
  end.

Lemma wait_for_loading_no_response o selectors :
  preserves no_response (wait_for_loading o selectors).
Proof.
  induction selectors as [|s rest IH]; cbn [wait_for_loading];
    repeat quiet_step.
Qed.

Lemma processScreenshotAsync_no_response o id startTime :
  preserves no_response (processScreenshotAsync o id startTime).
Proof.
  pose proof (wait_for_loading_no_response o loadingSelectors) as Hwait.
  unfold processScreenshotAsync, check_availability, capture_and_publish,
    on_error, processAndUploadImage, compress_image, upload_image,
    page_screenshot, browser_close, statSync_size, unlinkSync, existsSync,
    sharp_toBuffer, storage_remove, storage_upload, projects_update.
  repeat quiet_step.
Qed.


(** ** The pipeline, stage by stage *)

Lemma calls_app t1 t2 : calls (t1 ++ t2) = calls t1 ++ calls t2.
Proof. apply List.filter_app. Qed.

Lemma removal_log_not_a_call o : calls [removal_log o] = [].
Proof. unfold removal_log. destruct (remove_result o); reflexivity. Qed.

(** X12.  When every stage succeeds the calls are made in the order probe,
    launch, new page, viewport, navigation, one wait per loading selector,
    quiet period, capture, stat, browser close, the compressor's calls,
    removal, upload, record update, unlink; at the end the browser is
    closed, the transient file is gone, the bucket holds the payload under
    the identifier's key and the project's row, if there is one, holds the
    versioned public URL. *)
Theorem successful_run_in_stage_order o id startTime w png c :
  reaches_capture o = true ->
  shot o = ShotSaved png ->
  close_ok o = true ->
  fst (compress_image o (artifact_path o id)
         (with_files (<[artifact_path o id := png]> (files w)) w)) = Return c ->
  upload_ok o = true -> update_ok o = true -> unlink_ok o = true ->
  exists w' evs,
    processScreenshotAsync o id startTime w = (Return tt, w') /\
    trace w' = trace w ++ evs /\
    calls evs
    = [EvFetch (app_url id +:+ "?_health_check=" +:+ pretty (now_health o));
       EvLaunch; EvNewPage; EvSetViewport 1920 1080;
       EvGoto (app_url id +:+ "?_screenshot=" +:+ pretty (now_goto o))] ++
      map EvWaitForFunction loadingSelectors ++
      [EvWaitForTimeout 2000; EvScreenshot (artifact_path o id);
       EvStat (artifact_path o id); EvBrowserClose] ++
      calls (two_pass_events o (artifact_path o id) (Some png)) ++
      [EvStorageRemove (bucket_path id);
       EvStorageUpload (bucket_path id) (buf_length (payload c));
       EvDbUpdate id
         (public_url_of o (bucket_path id +:+ "?v=" +:+ pretty (now_version o)));
       EvUnlink (artifact_path o id)] /\
    browser w' = Closed /\
    files w' = delete (artifact_path o id) (files w) /\
    storage w' = <[bucket_path id := payload c]> (storage w) /\
    projects w'
    = match projects w !! id with
      | Some _ =>
          <[id := {| screenshot :=
                       public_url_of o
                         (bucket_path id +:+ "?v=" +:+ pretty (now_version o));
                     updated_at := now_updated o |}]> (projects w)
      | None => projects w
      end.
Proof.
  unfold reaches_capture, probe_fails.
  intros Hr Hshot Hclose Hc Hup Hupd Hunl.
  repeat (apply andb_true_iff in Hr as [Hr ?]).
  apply negb_true_iff in Hr.
  rewrite compress_image_run in Hc. cbn [fst] in Hc.
  destruct w as [br fs st pr fp tr].
  destruct (probe o) as [status|] eqn:Hprobe; [|discriminate].
  apply negb_false_iff in Hr.
  unfold processScreenshotAsync, check_availability, capture_and_publish.
  rewrite Hprobe.
  repeat match goal with H : _ = true |- _ => rewrite H end.
  unfold page_screenshot, browser_close, statSync_size, unlinkSync.
  rewrite Hshot, Hclose, Hunl.
  unfold_monad. eval_world. rewrite wait_for_loading_run. eval_world.
  fold (artifact_path o id). set (p := artifact_path o id) in *.
  cbn [files with_files] in Hc. rewrite lookup_insert_eq in Hc.
  rewrite lookup_insert_eq.
  rewrite processAndUploadImage_run. cbv zeta. eval_world.
  rewrite lookup_insert_eq, Hc.
  rewrite upload_image_run, Hup, Hupd. cbv zeta. cbn [andb]. eval_world.
  rewrite lookup_insert_eq. eval_world.
  eexists _, _. split; [reflexivity|]. cbv beta iota.
  rewrite <- !app_assoc. cbn [app].
  split; [reflexivity|].
  split; [|split; [reflexivity|split; [apply delete_insert_eq|split]]].
  - cbn [map loadingSelectors app].
    unfold calls at 1. cbn [List.filter is_log negb].
    fold (calls (two_pass_events o p (Some png) ++
                 EvStorageRemove (bucket_path id) :: removal_log o ::
                 [EvStorageUpload (bucket_path id) (buf_length (payload c));
                  EvDbUpdate id
                    (public_url_of o
                       (bucket_path id +:+ "?v=" +:+ pretty (now_version o)));
                  EvLog LInfo "Image processed and uploaded";
                  EvUnlink p;
                  EvLog LInfo "Screenshot file cleaned up successfully";
                  EvLog LInfo "Total processing time";
                  EvLog LInfo "Memory usage difference:";
                  EvLog LInfo "{ heapUsed, heapTotal, external, rss }";
                  EvLog LInfo "Screenshot processing completed successfully";
                  EvLog LInfo "Screenshot URL"; EvLog LInfo "Size"])).
    rewrite calls_app. do 11 f_equal. f_equal.
    unfold calls, removal_log. destruct (remove_result o); reflexivity.
  - destruct (remove_result o); rewrite ?insert_delete_eq; reflexivity.
  - destruct (pr !! id); reflexivity.
Qed.

(** X13.  Once [browser.close()] has succeeded, the pipeline ends with the
    browser closed whatever compression, publishing and cleanup do. *)
Theorem failures_after_close_leave_browser_closed o id startTime w png :
  reaches_capture o = true ->
  shot o = ShotSaved png ->
  close_ok o = true ->
  exists w',
    processScreenshotAsync o id startTime w = (Return tt, w') /\
    browser w' = Closed /\
    EvBrowserClose ∈ trace w'.
Proof.
  unfold reaches_capture, probe_fails.
  intros Hr Hshot Hclose.
  repeat (apply andb_true_iff in Hr as [Hr ?]).
  apply negb_true_iff in Hr.
  destruct w as [br fs st pr fp tr].
  destruct (probe o) as [status|] eqn:Hprobe; [|discriminate].
  apply negb_false_iff in Hr.
  unfold processScreenshotAsync, check_availability, capture_and_publish.
  rewrite Hprobe.
  repeat match goal with H : _ = true |- _ => rewrite H end.
  unfold on_error, page_screenshot, browser_close, statSync_size, unlinkSync,
    existsSync.
  rewrite Hshot, Hclose.
  unfold_monad. eval_world. rewrite wait_for_loading_run. eval_world.
  fold (artifact_path o id).
  assert (Htruthy : truthy (artifact_path o id) = true)
    by apply path_join_truthy.
  set (p := artifact_path o id) in *.
  c3_eval.
  match goal with
  | |- context [processAndUploadImage o p id ?W] =>
      pose proof (processAndUploadImage_keeps o p id W) as K;
      destruct (processAndUploadImage o p id W)
        as [r [br' fs' st' pr' fp' tr']]
  end.
  destruct K as (Kf & Kp & Kb & [evs Kt]). cbn in Kf, Kp, Kb, Kt. subst.
  destruct r as [res|e]; c3_eval; destruct (unlink_ok o); c3_eval;
    (eexists; split; [reflexivity|]; cbv beta iota;
     split; [reflexivity|]; rewrite <- !app_assoc; cbn [app]; in_list).
Qed.

(** X14.  When the capture fails without writing a file and no file was at
    the path, the [catch] block finds nothing to remove: [unlinkSync] is not
    called, and the directory, the bucket and the table are unchanged. *)
Theorem capture_without_file_needs_no_cleanup o id startTime w :
  reaches_capture o = true ->
  shot o = ShotFailed None ->
  files w !! artifact_path o id = None ->
  exists w' evs,
    processScreenshotAsync o id startTime w = (Return tt, w') /\
    trace w' = trace w ++ evs /\
    Forall (fun e => is_unlink e = false) evs /\
    files w' = files w /\ storage w' = storage w /\ projects w' = projects w.
Proof.
  unfold reaches_capture, probe_fails.
  intros Hr Hshot Hfile.
  repeat (apply andb_true_iff in Hr as [Hr ?]).
  apply negb_true_iff in Hr.
  destruct w as [br fs st pr fp tr]. cbn [files] in Hfile.
  destruct (probe o) as [status|] eqn:Hprobe; [|discriminate].
  apply negb_false_iff in Hr.
  unfold processScreenshotAsync, check_availability, capture_and_publish.
  rewrite Hprobe.
  repeat match goal with H : _ = true |- _ => rewrite H end.
  unfold on_error, page_screenshot, existsSync.
  rewrite Hshot.
  unfold_monad. eval_world. rewrite wait_for_loading_run. eval_world.
  fold (artifact_path o id).
  rewrite (path_join_truthy _ _ : truthy (artifact_path o id) = true).
  eval_world.
  rewrite Hfile. eval_world.
  eexists _, _. split; [reflexivity|]. cbv beta iota.
  rewrite <- !app_assoc. cbn [app map loadingSelectors].
  split; [reflexivity|]. split; [repeat constructor|].
  repeat split.
Qed.

(** X15.  When the probe or a stage before the capture fails, the pipeline
    ends normally having written nothing: no capture, unlink, bucket or table
    call is made, the directory, the bucket and the table are unchanged and
    no path was chosen; the browser is left launched if it had been
    launched. *)
Theorem failures_before_capture_change_nothing o id startTime w :
  reaches_capture o = false ->
  exists w' evs,
    processScreenshotAsync o id startTime w = (Return tt, w') /\
    trace w' = trace w ++ evs /\
    Forall (fun e => is_mutation e = false) evs /\
    files w' = files w /\ storage w' = storage w /\ projects w' = projects w /\
    filepath w' = None /\
    browser w'
    = (if negb (probe_fails o) && launch_ok o then Launched else browser w).
Proof.
  unfold reaches_capture, probe_fails. intros Hr.
  destruct w as [br fs st pr fp tr].
  unfold processScreenshotAsync, check_availability, capture_and_publish,
    on_error.
  unfold_monad.
  assert (Hfin : forall (b : browser_state) (t evs : list event),
            t = tr ++ evs ->
            Forall (fun e => is_mutation e = false) evs ->
            b = (if match probe o with
                    | ProbeResponse status => negb (negb (response_ok status))
                    | ProbeThrows => negb true
                    end && launch_ok o then Launched else br) ->
            exists w' evs',
              (Return tt,
               {| browser := b; files := fs; storage := st; projects := pr;
                  filepath := None; trace := t |}) = (Return tt, w') /\
              trace w' = tr ++ evs' /\
              Forall (fun e => is_mutation e = false) evs' /\
              files w' = fs /\ storage w' = st /\ projects w' = pr /\
              filepath w' = None /\
              browser w'
              = (if match probe o with
                    | ProbeResponse status => negb (negb (response_ok status))
                    | ProbeThrows => negb true
                    end && launch_ok o then Launched else br)).
  { intros b t evs -> Hev ->. eexists _, evs. repeat split. exact Hev. }
  cbn [browser files storage projects filepath trace].
  destruct (probe o) as [status|].
  2:{ eval_world. eapply Hfin; [rewrite <- !app_assoc; reflexivity| |];
      [repeat constructor | reflexivity]. }
  destruct (response_ok status).
  2:{ eval_world. eapply Hfin; [rewrite <- !app_assoc; reflexivity| |];
      [repeat constructor | reflexivity]. }
  cbn [negb andb] in Hr |- *.
  destruct (launch_ok o).
  2:{ eval_world. eapply Hfin; [rewrite <- !app_assoc; reflexivity| |];
      [repeat constructor | reflexivity]. }
  destruct (newpage_ok o).
  2:{ eval_world. eapply Hfin; [rewrite <- !app_assoc; reflexivity| |];
      [repeat constructor | reflexivity]. }
  destruct (viewport_ok o).
  2:{ eval_world. eapply Hfin; [rewrite <- !app_assoc; reflexivity| |];
      [repeat constructor | reflexivity]. }
  destruct (goto_ok o).
  2:{ eval_world. eapply Hfin; [rewrite <- !app_assoc; reflexivity| |];
      [repeat constructor | reflexivity]. }
  destruct (wait_ok o); [discriminate|].
  eval_world. rewrite wait_for_loading_run. eval_world.
  eapply Hfin; [rewrite <- !app_assoc; reflexivity| |];
    [cbn [app map loadingSelectors]; repeat constructor | reflexivity].
Qed.

(** ** Settling and file names *)


(** X16.  File names built at line 252 differ whenever the identifiers
    differ or the millisecond timestamps differ. *)
Theorem distinct_requests_get_distinct_filenames (id1 id2 : string) (t1 t2 : Z) :
  0 <= t1 -> 0 <= t2 ->
  id1 <> id2 \/ t1 <> t2 ->
  screenshot_filename id1 t1 <> screenshot_filename id2 t2.
Proof.
  intros H1 H2 Hne E.
  destruct (screenshot_filename_inj id1 id2 t1 t2 H1 H2 E) as [Hi Ht].
  destruct Hne as [Hne|Hne]; contradiction.
Qed.

(** ** Instances *)

Lemma failed_upload_skips_record_update_witness :
  exists w' evs,
    processAndUploadImage (faulty_oracle true (ShotSaved sample_png)
                             (Some (zeros 2048)))
      "/app/screenshots/shot.png" "abc123" world_with_png
    = (Throw UploadError, w') /\
    trace w' = trace world_with_png ++ evs /\
    Forall (fun e => is_db_update e = false) evs /\
    projects w' = projects world_with_png /\
    (remove_result (faulty_oracle true (ShotSaved sample_png)
                      (Some (zeros 2048))) = RemoveDone ->
     storage w' !! bucket_path "abc123" = None).
Proof.
  apply (failed_upload_skips_record_update
           (faulty_oracle true (ShotSaved sample_png) (Some (zeros 2048)))
           "/app/screenshots/shot.png" "abc123" world_with_png
           (mk_compressed (zeros 2048))).
  - vm_compute. reflexivity.
  - reflexivity.
Defined.

Lemma encode_failure_publishes_nothing_witness :
  exists w' evs,
    processAndUploadImage (faulty_oracle true (ShotSaved sample_png) None)
      "/app/screenshots/shot.png" "abc123" world_with_png
    = (Throw ImageProcessingError, w') /\
    ImageProcessingError = ImageProcessingError /\
    trace w' = trace world_with_png ++ evs /\
    Forall (fun ev => is_storage_call ev = false /\ is_db_update ev = false) evs /\
    storage w' = storage world_with_png /\
    projects w' = projects world_with_png.
Proof.
  apply (encode_failure_publishes_nothing
           (faulty_oracle true (ShotSaved sample_png) None)
           "/app/screenshots/shot.png" "abc123" world_with_png
           ImageProcessingError).
  vm_compute. reflexivity.
Defined.

Lemma compressed_payload_comes_from_sharp_witness :
  size_kb (mk_compressed (zeros 2048))
  = kb (buf_length (payload (mk_compressed (zeros 2048)))) /\
  exists png b1,
    files world_with_png !! "/app/screenshots/shot.png" = Some png /\
    sharp_pass1 ok_oracle png = Some b1 /\
    (payload (mk_compressed (zeros 2048)) = b1 \/
     (ceiling_bytes < buf_length b1 /\
      sharp_pass2 ok_oracle b1 = Some (payload (mk_compressed (zeros 2048))))).
Proof.
  apply (compressed_payload_comes_from_sharp ok_oracle
           "/app/screenshots/shot.png" world_with_png
           (mk_compressed (zeros 2048))).
  vm_compute. reflexivity.
Defined.

Lemma payload_meets_ceiling_iff_a_pass_does_witness :
  exists c,
    fst (compress_image ok_oracle "/app/screenshots/shot.png" world_with_png)
    = Return c /\
    (buf_length (payload c) <= ceiling_bytes <->
     buf_length (zeros 2048) <= ceiling_bytes \/
     buf_length (zeros 1024) <= ceiling_bytes).
Proof.
  apply (payload_meets_ceiling_iff_a_pass_does ok_oracle
           "/app/screenshots/shot.png" world_with_png
           sample_png (zeros 2048) (zeros 1024)).
  - apply world_with_png_lookup.
  - reflexivity.
  - reflexivity.
Defined.

Lemma distinct_projects_have_distinct_keys_witness :
  bucket_path "abc123" <> bucket_path "xyz" /\ app_url "abc123" <> app_url "xyz".
Proof.
  apply (distinct_projects_have_distinct_keys "abc123" "xyz"). discriminate.
Defined.

Lemma republishing_overwrites_witness :
  exists r1 w1 r2 w2,
    upload_image ok_oracle "abc123" (mk_compressed (zeros 2048)) idle_world
    = (Return r1, w1) /\
    upload_image ok_oracle "abc123" (mk_compressed (zeros 1024)) w1
    = (Return r2, w2) /\
    storage w2
    = <[bucket_path "abc123" := payload (mk_compressed (zeros 1024))]>
        (storage idle_world) /\
    (forall row, projects idle_world !! "abc123" = Some row ->
       projects w2 !! "abc123"
       = Some {| screenshot := url r2; updated_at := now_updated ok_oracle |}) /\
    (projects idle_world !! "abc123" = None -> projects w2 = projects idle_world).
Proof.
  apply (republishing_overwrites ok_oracle ok_oracle "abc123"
           (mk_compressed (zeros 2048)) (mk_compressed (zeros 1024))
           idle_world); reflexivity.
Defined.

Lemma failures_after_close_leave_browser_closed_witness :
  exists w',
    processScreenshotAsync
      (faulty_oracle true (ShotSaved sample_png) None) "abc123" 1 idle_world
    = (Return tt, w') /\
    browser w' = Closed /\
    EvBrowserClose ∈ trace w'.
Proof.
  apply (failures_after_close_leave_browser_closed
           (faulty_oracle true (ShotSaved sample_png) None) "abc123" 1
           idle_world sample_png); reflexivity.
Defined.

Lemma capture_without_file_needs_no_cleanup_witness :
  exists w' evs,
    processScreenshotAsync
      (faulty_oracle true (ShotFailed None) None) "abc123" 1 idle_world
    = (Return tt, w') /\
    trace w' = trace idle_world ++ evs /\
    Forall (fun e => is_unlink e = false) evs /\
    files w' = files idle_world /\ storage w' = storage idle_world /\
    projects w' = projects idle_world.
Proof.
  apply (capture_without_file_needs_no_cleanup
           (faulty_oracle true (ShotFailed None) None) "abc123" 1 idle_world).
  - reflexivity.
  - reflexivity.
  - apply lookup_empty.
Defined.

Lemma failures_before_capture_change_nothing_witness :
  exists w' evs,
    processScreenshotAsync
      (faulty_oracle false (ShotSaved sample_png) None) "abc123" 1 idle_world
    = (Return tt, w') /\
    trace w' = trace idle_world ++ evs /\
    Forall (fun e => is_mutation e = false) evs /\
    files w' = files idle_world /\ storage w' = storage idle_world /\
    projects w' = projects idle_world /\
    filepath w' = None /\
    browser w'
    = (if negb (probe_fails (faulty_oracle false (ShotSaved sample_png) None)) &&
          launch_ok (faulty_oracle false (ShotSaved sample_png) None)
       then Launched else browser idle_world).
Proof.
  apply (failures_before_capture_change_nothing
           (faulty_oracle false (ShotSaved sample_png) None) "abc123" 1
           idle_world).
  reflexivity.
Defined.

Lemma empty_id_is_rejected_witness :
  take_screenshot ok_oracle (sample_request "") idle_world
  = (Return tt,
     with_trace
       (trace idle_world ++
        [EvLog LInfo "New screenshot request received";
         EvLog LWarn "Request rejected: Missing ID";
         EvResponse 400 (BodyError "ID is required in request body")])
       idle_world).
Proof.
  apply (empty_id_is_rejected ok_oracle (sample_request "")
           {[ "project_id" := "" ]} idle_world).
  - reflexivity.
  - apply lookup_singleton_eq.
Defined.

Lemma distinct_requests_get_distinct_filenames_witness :
  screenshot_filename "abc123" 1700000003000
  <> screenshot_filename "abc123" 1700000003001.
Proof.
  apply (distinct_requests_get_distinct_filenames "abc123" "abc123"
           1700000003000 1700000003001).
  - lia.
  - lia.
  - right. lia.
Defined.

Lemma successful_run_in_stage_order_witness :
  exists w' evs,
    processScreenshotAsync ok_oracle "abc123" 1 idle_world = (Return tt, w') /\
    trace w' = trace idle_world ++ evs /\
    calls evs
    = [EvFetch (app_url "abc123" +:+ "?_health_check=" +:+
                pretty (now_health ok_oracle));
       EvLaunch; EvNewPage; EvSetViewport 1920 1080;
       EvGoto (app_url "abc123" +:+ "?_screenshot=" +:+
               pretty (now_goto ok_oracle))] ++
      map EvWaitForFunction loadingSelectors ++
      [EvWaitForTimeout 2000; EvScreenshot (artifact_path ok_oracle "abc123");
       EvStat (artifact_path ok_oracle "abc123"); EvBrowserClose] ++
      calls (two_pass_events ok_oracle (artifact_path ok_oracle "abc123")
               (Some sample_png)) ++
      [EvStorageRemove (bucket_path "abc123");
       EvStorageUpload (bucket_path "abc123")
         (buf_length (payload (mk_compressed (zeros 2048))));
       EvDbUpdate "abc123"
         (public_url_of ok_oracle
            (bucket_path "abc123" +:+ "?v=" +:+ pretty (now_version ok_oracle)));
       EvUnlink (artifact_path ok_oracle "abc123")] /\
    browser w' = Closed /\
    files w' = delete (artifact_path ok_oracle "abc123") (files idle_world) /\
    storage w'
    = <[bucket_path "abc123" := payload (mk_compressed (zeros 2048))]>
        (storage idle_world) /\
    projects w'
    = match projects idle_world !! "abc123" with
      | Some _ =>
          <["abc123" := {| screenshot :=
                             public_url_of ok_oracle
                               (bucket_path "abc123" +:+ "?v=" +:+
                                pretty (now_version ok_oracle));
                           updated_at := now_updated ok_oracle |}]>
            (projects idle_world)
      | None => projects idle_world
      end.
Proof.
  apply (successful_run_in_stage_order ok_oracle "abc123" 1 idle_world
           sample_png (mk_compressed (zeros 2048))).
  - reflexivity.
  - reflexivity.
  - reflexivity.
  - vm_compute. reflexivity.
  - reflexivity.
  - reflexivity.
  - reflexivity.
Defined.
